(** * German rental market dashboard (app.py): data loading, filtering and
      the aggregates behind the metrics, segment, geography and amenities views.

    The dashboard is a pandas script.  Numeric cells are float64, so they are
    modelled by Rocq's binary64 primitive floats: comparisons, division by
    zero (signed infinities), NaN for a missing cell and NaN-skipping means
    behave as they do in the program.  The remote download and the CSV parser
    are outside the model: a table is the list of parsed rows, in file order. *)

From Stdlib Require Import List String Bool Arith Lia ZArith Permutation Sorted.
From Stdlib Require Import Floats.
From Stdlib Require Uint63.
Import ListNotations.

Local Open Scope string_scope.
Local Open Scope list_scope.
Local Open Scope float_scope.

(** ** Data model *)

(** The four labels handed to [pd.cut], in their order. *)
Inductive Category : Type := Budget | Economy | MidRange | Premium.

Definition label (c : Category) : string :=
  match c with
  | Budget => "Budget"
  | Economy => "Economy"
  | MidRange => "Mid-Range"
  | Premium => "Premium"
  end.

Definition labels : list Category := [Budget; Economy; MidRange; Premium].

Definition Category_eqb (a b : Category) : bool :=
  match a, b with
  | Budget, Budget | Economy, Economy | MidRange, MidRange | Premium, Premium => true
  | _, _ => false
  end.

(** One parsed CSV line.  A missing numeric cell is [nan]. *)
Record CsvRow : Type := mkCsvRow {
  csv_regio1 : string;
  csv_totalRent : float;
  csv_livingSpace : float;
  csv_balcony : bool;
  csv_hasKitchen : bool;
  csv_lift : bool;
  csv_garden : bool;
  csv_cellar : bool
}.

(** A row of the data frame after [load_data] has added [price_category];
    [None] is the categorical's missing value. *)
Record Listing : Type := mkListing {
  regio1 : string;
  totalRent : float;
  livingSpace : float;
  balcony : bool;
  hasKitchen : bool;
  lift : bool;
  garden : bool;
  cellar : bool;
  price_category : option Category
}.

(** The parsed CSV payload: the column names of its header, and its lines. *)
Record Csv : Type := mkCsv {
  header : list string;
  lines : list CsvRow
}.

(** A data frame: the names from the header, and its rows in index order. *)
Record DataFrame : Type := mkFrame {
  columns : list string;
  rows : list Listing
}.

(** The amenity columns the amenities tab loops over. *)
Inductive Amenity : Type := Balcony | HasKitchen | Lift | Garden | Cellar.

Definition name (a : Amenity) : string :=
  match a with
  | Balcony => "balcony"
  | HasKitchen => "hasKitchen"
  | Lift => "lift"
  | Garden => "garden"
  | Cellar => "cellar"
  end.

Definition flag (a : Amenity) (r : Listing) : bool :=
  match a with
  | Balcony => balcony r
  | HasKitchen => hasKitchen r
  | Lift => lift r
  | Garden => garden r
  | Cellar => cellar r
  end.

(** ** pandas primitives used by the script *)

(** A count as a float64 (counts are far below 2^63, where the conversion
    through the machine integer is the identity). *)
Definition of_nat (n : nat) : float := of_uint63 (Uint63.of_Z (Z.of_nat n)).

(** [bins.searchsorted(x, side="left")] on the ascending edge list: the number
    of edges strictly below [x]. *)
Fixpoint searchsorted_left (bins : list float) (x : float) : nat :=
  match bins with
  | [] => 0%nat
  | b :: bins' => if b <? x then S (searchsorted_left bins' x) else 0%nat
  end.

(** [pd.cut(x, bins, labels)] with its defaults [right=True] and
    [include_lowest=False]: the index from [searchsorted] selects the label;
    a NaN input, index 0 and index [len(bins)] give the missing value. *)
Definition cut_with (bins : list float) (labs : list Category) (x : float)
  : option Category :=
  let ids := searchsorted_left bins x in
  if is_nan x || Nat.eqb ids (List.length bins) || Nat.eqb ids 0 then None
  else nth_error labs (ids - 1)%nat.

Definition bins : list float := [0; 500; 1000; 1500; 3000].

Definition cut (x : float) : option Category := cut_with bins labels x.

(** The bin of a label as the code's call makes it: open below, closed
    above. *)
Definition edges (c : Category) : float * float :=
  match c with
  | Budget => (0, 500)
  | Economy => (500, 1000)
  | MidRange => (1000, 1500)
  | Premium => (1500, 3000)
  end.

Definition in_bin (c : Category) (x : float) : Prop :=
  (fst (edges c) <? x) = true /\ (x <=? snd (edges c)) = true.

(** The binning as the specification words it: half-open bins closed on the
    left, [lo <= x < hi]. *)
Fixpoint bin_left_inclusive (bins : list float) (labs : list Category) (x : float)
  : option Category :=
  match bins with
  | [] => None
  | lo :: rest =>
      match rest, labs with
      | hi :: _, l :: labs' =>
          if (lo <=? x) && (x <? hi) then Some l
          else bin_left_inclusive rest labs' x
      | _, _ => None
      end
  end.

Definition cut_left_inclusive (x : float) : option Category :=
  bin_left_inclusive bins labels x.

(** ** load_data (lines 20-38) *)

Definition with_price_category (r : CsvRow) : Listing :=
  {| regio1 := csv_regio1 r;
     totalRent := csv_totalRent r;
     livingSpace := csv_livingSpace r;
     balcony := csv_balcony r;
     hasKitchen := csv_hasKitchen r;
     lift := csv_lift r;
     garden := csv_garden r;
     cellar := csv_cellar r;
     price_category := cut (csv_totalRent r) |}.

(** [df[mask]]: the rows where the boolean mask holds, in their order, with
    every column. *)
Definition select (p : Listing -> bool) (df : DataFrame) : DataFrame :=
  {| columns := columns df; rows := filter p (rows df) |}.

(** [df['price_category'] = ...]: the column is overwritten if the file has
    one of that name, and added as the last column otherwise. *)
Definition add_column (c : string) (cols : list string) : list string :=
  if existsb (String.eqb c) cols then cols else cols ++ [c].

Definition load_data (csv : Csv) : DataFrame :=
  let df := {| columns := add_column "price_category" (header csv);
               rows := map with_price_category (lines csv) |} in
  select (fun r => totalRent r <=? 3000) df.

(** ** Filter layer (lines 60-64) *)

(** [df['price_category'] == seg]: a missing category compares unequal. *)
Definition category_is (seg : string) (r : Listing) : bool :=
  match price_category r with
  | Some c => String.eqb (label c) seg
  | None => false
  end.

Definition region_is (state : string) (r : Listing) : bool :=
  String.eqb (regio1 r) state.

Definition filtered_df (df : DataFrame) (selected_state selected_segment : string)
  : DataFrame :=
  let filtered := df in
  let filtered :=
    if negb (String.eqb selected_state "All States")
    then select (region_is selected_state) filtered else filtered in
  let filtered :=
    if negb (String.eqb selected_segment "All Segments")
    then select (category_is selected_segment) filtered else filtered in
  filtered.

(** ** Metrics panel (lines 71-83) *)

(** [dropna]: the cells that are not NaN. *)
Definition dropna (xs : list float) : list float :=
  filter (fun x => negb (is_nan x)) xs.

(** The values as [nanmean] sums them: a NaN cell is replaced by 0 and keeps
    its place in the array. *)
Definition fill_zero (xs : list float) : list float :=
  map (fun x => if is_nan x then 0 else x) xs.

Definition add_loop (res : float) (xs : list float) : float :=
  fold_left PrimFloat.add xs res.

(** The eight partial sums of numpy's unrolled summation loop. *)
Record Acc8 : Type := mkAcc8 {
  r0 : float; r1 : float; r2 : float; r3 : float;
  r4 : float; r5 : float; r6 : float; r7 : float
}.

Fixpoint accumulate8 (r : Acc8) (xs : list float) : Acc8 :=
  match xs with
  | a0 :: a1 :: a2 :: a3 :: a4 :: a5 :: a6 :: a7 :: xs' =>
      accumulate8 (mkAcc8 (r0 r + a0) (r1 r + a1) (r2 r + a2) (r3 r + a3)
                          (r4 r + a4) (r5 r + a5) (r6 r + a6) (r7 r + a7)) xs'
  | _ => r
  end.

(** The middle case of numpy's pairwise sum, for 8 to 128 elements: the
    elements up to the last multiple of 8 go into eight interleaved partial
    sums, these are added in pairs, and the remaining elements are added one
    by one. *)
Definition unrolled_sum (xs : list float) : float :=
  let n := List.length xs in
  let m := (n - n mod 8)%nat in
  match firstn m xs with
  | a0 :: a1 :: a2 :: a3 :: a4 :: a5 :: a6 :: a7 :: body =>
      let r := accumulate8 (mkAcc8 a0 a1 a2 a3 a4 a5 a6 a7) body in
      add_loop (((r0 r + r1 r) + (r2 r + r3 r)) + ((r4 r + r5 r) + (r6 r + r7 r)))
               (skipn m xs)
  | _ => add_loop 0 xs
  end.

(** numpy's pairwise summation of a float64 array: fewer than 8 elements are
    added left to right, up to 128 by [unrolled_sum], and a longer array is
    split near its middle, at a multiple of 8, and the sums of the two parts
    are added.  [fuel] bounds the depth of the splitting; the length of the
    array is enough (see [pairwise_sum_fuel]).  (Recent numpy starts the short
    loop from -0.0, which differs only in the sign of a zero total.) *)
Fixpoint pairwise_sum (fuel : nat) (xs : list float) : float :=
  let n := List.length xs in
  if Nat.ltb n 8 then add_loop 0 xs
  else if Nat.leb n 128 then unrolled_sum xs
  else match fuel with
       | O => unrolled_sum xs
       | S fuel' =>
           let n2 := (n / 2 - (n / 2) mod 8)%nat in
           pairwise_sum fuel' (firstn n2 xs) + pairwise_sum fuel' (skipn n2 xs)
       end.

(** [ndarray.sum()]: the reduction starts from 0 and adds the pairwise sum of
    the array. *)
Definition np_sum (xs : list float) : float :=
  0 + pairwise_sum (List.length xs) xs.

(** [Series.mean()] ([nanops.nanmean]): the NaN cells are counted out and
    replaced by 0, the array is summed by numpy and the total is divided by
    the number of cells that are not NaN; without such a cell the result is
    NaN.  Infinite cells are not counted out. *)
Definition mean (xs : list float) : float :=
  let count := List.length (dropna xs) in
  if Nat.ltb 0 count then np_sum (fill_zero xs) / of_nat count else nan.

(** The state of the group mean for one group and column: the running sum,
    the compensation term of Kahan's summation, and the number of cells that
    are not NaN. *)
Record MeanState : Type := mkMeanState {
  sumx : float;
  compensation : float;
  nobs : nat
}.

Definition group_mean_step (st : MeanState) (val : float) : MeanState :=
  if is_nan val then st
  else
    let y := val - compensation st in
    let t := sumx st + y in
    let c := (t - sumx st) - y in
    {| sumx := t;
       compensation := (if is_nan c then 0 else c);
       nobs := S (nobs st) |}.

(** The mean of a group as [groupby(...).agg('mean')] computes it: the cells
    that are not NaN are added in row order with Kahan's compensated
    summation and the sum is divided by their number; a group without such a
    cell has NaN. *)
Definition group_mean (xs : list float) : float :=
  let st := fold_left group_mean_step xs (mkMeanState 0 0 0) in
  if Nat.eqb (nobs st) 0 then nan else sumx st / of_nat (nobs st).

Module Metrics.
Definition total_listings (df : DataFrame) : nat := List.length (rows df).

Definition avg_rent (df : DataFrame) : float := mean (map totalRent (rows df)).

Definition avg_space (df : DataFrame) : float := mean (map livingSpace (rows df)).

(** The element-wise quotient of the two columns (line 82). *)
Definition ratio (r : Listing) : float := totalRent r / livingSpace r.

Definition price_per_sqm (df : DataFrame) : float := mean (map ratio (rows df)).
End Metrics.

(** ** Sorting and de-duplication helpers *)

Section Sorting.
Context {A : Type}.
Variable lt : A -> A -> bool.

(** One pass of insertion sort: [x] goes in front of the first element it is
    strictly below, so equal keys keep their order of arrival. *)
Fixpoint insert (x : A) (l : list A) : list A :=
  match l with
  | [] => [x]
  | y :: l' => if lt x y then x :: l else y :: insert x l'
  end.

Definition insertion_sort (l : list A) : list A :=
  fold_left (fun acc x => insert x acc) l [].
End Sorting.

(** [DataFrame.sort_values(by, ascending=False)] as pandas' [nargsort] does it:
    rows with a NaN key are set aside and put last; the others are reversed,
    sorted ascending and reversed again.  The ascending sort is the insertion
    sort numpy uses for arrays of up to 16 elements; on longer arrays numpy
    may order rows with equal keys differently, and nothing proved below
    depends on the order among equal keys. *)
Definition sort_values_desc {A : Type} (by_ : A -> float) (l : list A) : list A :=
  let non_nans := filter (fun a => negb (is_nan (by_ a))) l in
  let nans := filter (fun a => is_nan (by_ a)) l in
  rev (insertion_sort (fun a b => by_ a <? by_ b) (rev non_nans)) ++ nans.

(** [Series.unique()]: the distinct values in order of first appearance. *)
Fixpoint unique {A : Type} (eqb : A -> A -> bool) (l : list A) : list A :=
  match l with
  | [] => []
  | x :: l' => x :: filter (fun y => negb (eqb y x)) (unique eqb l')
  end.

Definition option_eqb {A : Type} (eqb : A -> A -> bool) (a b : option A) : bool :=
  match a, b with
  | Some x, Some y => eqb x y
  | None, None => true
  | _, _ => false
  end.

(** ** Sidebar selectors (lines 52-57) *)


Definition is_missing {A : Type} (o : option A) : bool :=
  match o with None => true | Some _ => false end.

(** Python's [sorted] on the list [unique().tolist()] gives: label strings, and
    the float nan for a missing category.  Ordering a string against a float
    raises TypeError, which happens as soon as nan has any other element to be
    compared with; [None] is that exception. *)
Definition py_lt (a b : option string) : bool :=
  match a, b with
  | Some x, Some y => String.ltb x y
  | _, _ => false
  end.

Definition sorted_py (l : list (option string)) : option (list (option string)) :=
  if existsb is_missing l && Nat.ltb 1 (List.length l) then None
  else Some (insertion_sort py_lt l).

Definition segments (df : DataFrame) : option (list (option string)) :=
  match sorted_py (map (option_map label)
                       (unique (option_eqb Category_eqb) (map price_category (rows df)))) with
  | Some l => Some (Some "All Segments" :: l)
  | None => None
  end.

(** ** Group-by aggregation (lines 92-97 and 126-131) *)

Definition two52 : float := 4503599627370496.

(** Round to the nearest integer, ties to even, as C's [rint]: below 2^52 in
    magnitude, adding and subtracting 2^52 rounds in the addition. *)
Definition rint (y : float) : float :=
  if abs y <? two52 then
    if get_sign y then - ((- y + two52) - two52) else (y + two52) - two52
  else y.

(** [.round(1)] on a float column: scale by ten, [rint], scale back. *)
Definition round1 (x : float) : float := rint (x * 10) / 10.

Record GroupRow (K : Type) : Type := mkGroupRow {
  group : K;
  avg_rent : float;
  count : nat;
  avg_space : float
}.
Arguments mkGroupRow {K}.
Arguments group {K}.
Arguments avg_rent {K}.
Arguments count {K}.
Arguments avg_space {K}.

(** [.agg({'totalRent': ['mean', 'count'], 'livingSpace': 'mean'}).round(1)] on
    the rows of one group; [count] counts the non-missing rents. *)
Definition agg {K : Type} (k : K) (g : list Listing) : GroupRow K :=
  {| group := k;
     avg_rent := round1 (group_mean (map totalRent g));
     count := List.length (dropna (map totalRent g));
     avg_space := round1 (group_mean (map livingSpace g)) |}.

Definition in_category (c : Category) (r : Listing) : bool :=
  option_eqb Category_eqb (price_category r) (Some c).

(** Grouping by the categorical column gives the groups in category order.
    [observed] is the library default of [groupby]: [false] (pandas before
    3.0) keeps a group for every declared category, also an empty one;
    [true] keeps the categories that occur.  Rows with a missing category are
    in no group. *)
Definition segment_data (observed : bool) (df : DataFrame) : list (GroupRow Category) :=
  let keys :=
    if observed then filter (fun c => existsb (in_category c) (rows df)) labels
    else labels in
  map (fun c => agg c (filter (in_category c) (rows df))) keys.

(** Grouping by the string column gives one group per distinct value, keys
    sorted; the result is then ordered by [avg_rent], largest first. *)
Definition state_data (df : DataFrame) : list (GroupRow string) :=
  let keys := insertion_sort String.ltb (unique String.eqb (map regio1 (rows df))) in
  let grouped := map (fun k => agg k (filter (region_is k) (rows df))) keys in
  sort_values_desc avg_rent grouped.

(** ** Amenities analysis (lines 153-170) *)

Definition amenities : list Amenity := [Balcony; HasKitchen; Lift; Garden; Cellar].

Record AmenityResult : Type := mkAmenityResult {
  amenity : string;
  premium_pct : float;
  prevalence : float
}.

Definition has_column (df : DataFrame) (c : string) : bool :=
  existsb (String.eqb c) (columns df).

Definition with_amenity (df : DataFrame) (a : Amenity) : float :=
  mean (map totalRent (filter (fun r => Bool.eqb (flag a r) true) (rows df))).

Definition without_amenity (df : DataFrame) (a : Amenity) : float :=
  mean (map totalRent (filter (fun r => Bool.eqb (flag a r) false) (rows df))).

(** [df[amenity].sum()]: the number of [True] cells. *)
Definition count_true (df : DataFrame) (a : Amenity) : nat :=
  List.length (filter (flag a) (rows df)).

(** The body of the loop for one amenity: what it appends, if anything. *)
Definition amenity_entry (df : DataFrame) (a : Amenity) : option AmenityResult :=
  if has_column df (name a) then
    let w := with_amenity df a in
    let wo := without_amenity df a in
    if 0 <? wo then
      let premium := ((w - wo) / wo) * 100 in
      Some {| amenity := name a;
              premium_pct := premium;
              prevalence := (of_nat (count_true df a) / of_nat (List.length (rows df))) * 100 |}
    else None
  else None.

Fixpoint amenity_loop (df : DataFrame) (todo : list Amenity) (acc : list AmenityResult)
  : list AmenityResult :=
  match todo with
  | [] => acc
  | a :: todo' =>
      match amenity_entry df a with
      | Some e => amenity_loop df todo' (acc ++ [e])
      | None => amenity_loop df todo' acc
      end
  end.

Definition amenity_results (df : DataFrame) : list AmenityResult :=
  amenity_loop df amenities [].

(** The sorted frame exists only when the loop appended something. *)
Definition amenity_df (df : DataFrame) : option (list AmenityResult) :=
  match amenity_results df with
  | [] => None
  | rs => Some (sort_values_desc premium_pct rs)
  end.

(** ** The filter layer as the specification words it *)

(** The conjunction of the equality predicates a pair of selections stands
    for; a sentinel selection contributes none. *)
Definition selection (state segment : string) (r : Listing) : bool :=
  (String.eqb state "All States" || String.eqb (regio1 r) state) &&
  (String.eqb segment "All Segments" ||
   match price_category r with
   | Some c => String.eqb (label c) segment
   | None => false
   end).

(** The same as a proposition: what a row must satisfy to be kept. *)
Definition kept (state segment : string) (r : Listing) : Prop :=
  (state = "All States" \/ regio1 r = state) /\
  (segment = "All Segments" \/
   exists c, price_category r = Some c /\ label c = segment).

(** [Subseq l1 l2]: [l1] is [l2] with some elements left out, the others in
    their order. *)
Inductive Subseq {A : Type} : list A -> list A -> Prop :=
| Subseq_nil : Subseq [] []
| Subseq_skip (x : A) (l1 l2 : list A) : Subseq l1 l2 -> Subseq l1 (x :: l2)
| Subseq_keep (x : A) (l1 l2 : list A) : Subseq l1 l2 -> Subseq (x :: l1) (x :: l2).

(** ** Example tables *)

Definition all_amenities : list string := map name amenities.

Definition zero_rent_line : CsvRow :=
  mkCsvRow "Berlin" 0 40 false false false false false.

Definition mid_range_line : CsvRow :=
  mkCsvRow "Berlin" 1200 60 false false false false false.

(** The two-listing Berlin table of the end-to-end scenario. *)
Definition berlin_csv : Csv :=
  mkCsv all_amenities
        [mkCsvRow "Berlin" 400 40 false false false false false;
         mkCsvRow "Berlin" 1200 60 false false false false false].

(** The same table with the living space of the first listing entered as 0. *)
Definition zero_space_csv : Csv :=
  mkCsv all_amenities
        [mkCsvRow "Berlin" 400 0 false false false false false;
         mkCsvRow "Berlin" 1200 60 false false false false false].

(** ** The price per area as the specification words it *)

(** A row whose living space is zero or missing is left out of the mean. *)
Definition space_defined (r : Listing) : bool :=
  negb (is_nan (livingSpace r) || (livingSpace r =? 0)).

Definition price_per_sqm_excluding (df : DataFrame) : float :=
  mean (map Metrics.ratio (filter space_defined (rows df))).

(** ** Orders used to state the results *)

(** [precedes x y]: in an order that is descending and puts undefined keys
    last, key [x] may stand before key [y]. *)
Definition precedes (x y : float) : bool := is_nan y || (y <=? x).

Definition sorted_desc {A : Type} (by_ : A -> float) (l : list A) : Prop :=
  StronglySorted (fun a b => precedes (by_ a) (by_ b) = true) l.

Definition Amenity_eqb (a b : Amenity) : bool :=
  match a, b with
  | Balcony, Balcony | HasKitchen, HasKitchen | Lift, Lift
  | Garden, Garden | Cellar, Cellar => true
  | _, _ => false
  end.

(** What one turn of the amenities loop adds to the result list. *)
Definition appended (df : DataFrame) (a : Amenity) : list AmenityResult :=
  match amenity_entry df a with
  | Some e => [e]
  | None => []
  end.


(** Two listings: the one without balcony is entered with a rent of 0, so the
    mean rent without balcony is 0. *)
Definition zero_baseline_csv : Csv :=
  mkCsv all_amenities
        [mkCsvRow "Berlin" 0 40 false false true false false;
         mkCsvRow "Berlin" 1200 60 true false false false false].

(** The balcony scenario: two listings with balcony averaging 1000, two
    without averaging 800; the table has no other amenity column. *)
Definition balcony_csv : Csv :=
  mkCsv ["balcony"]
        [mkCsvRow "Berlin" 900 40 true false false false false;
         mkCsvRow "Berlin" 1100 60 true false false false false;
         mkCsvRow "Bayern" 700 35 false false false false false;
         mkCsvRow "Bayern" 900 55 false false false false false].

(** Balcony brings no premium here and lift a large one, so sorting changes
    the loop's order. *)
Definition two_amenities_csv : Csv :=
  mkCsv ["balcony"; "lift"]
        [mkCsvRow "Berlin" 1500 40 false false true false false;
         mkCsvRow "Berlin" 1500 60 true false true false false;
         mkCsvRow "Bayern" 500 35 false false false false false;
         mkCsvRow "Bayern" 500 55 true false false false false].


(** ** Notions used to state further properties *)

(** The position of a label in the ordered list handed to [pd.cut]. *)
Definition rank (c : Category) : nat :=
  match c with
  | Budget => 0
  | Economy => 1
  | MidRange => 2
  | Premium => 3
  end.

(** A row whose rent cell is not missing. *)
Definition rent_defined (r : Listing) : bool := negb (is_nan (totalRent r)).

(** A row that has a price category. *)
Definition categorised (r : Listing) : bool := negb (is_missing (price_category r)).

(** A CSV whose rents all lie in the range the bins cover. *)
Definition rents_in_range (csv : Csv) : Prop :=
  Forall (fun c => (0 <? csv_totalRent c) = true /\
                   (csv_totalRent c <=? 3000) = true) (lines csv).


(** Every listing has a balcony, so no rent is left for the baseline. *)
Definition all_balcony_csv : Csv :=
  mkCsv ["balcony"]
        [mkCsvRow "Berlin" 900 40 true false false false false;
         mkCsvRow "Berlin" 1100 60 true false false false false].

(** Seventeen listings in seventeen different regions. *)
Definition seventeen_regions_csv : Csv :=
  mkCsv all_amenities
        (map (fun s => mkCsvRow s 700 50 false false false false false)
             ["R01"; "R02"; "R03"; "R04"; "R05"; "R06"; "R07"; "R08"; "R09";
              "R10"; "R11"; "R12"; "R13"; "R14"; "R15"; "R16"; "R17"]).


(** ** The filter layer for any entry of the segment selector *)

(** An entry of the segment selector is a label or, when a row has no
    category, the float nan ([None]).  [df['price_category'] == v]: no cell
    compares equal to nan. *)
Definition segment_is (v : option string) (r : Listing) : bool :=
  match v with
  | Some seg => category_is seg r
  | None => false
  end.

(** Lines 60-64 with such an entry as the selected segment; nan differs from
    the sentinel, so the segment mask is applied for it. *)
Definition filtered_df_choice (df : DataFrame) (selected_state : string)
           (selected_segment : option string) : DataFrame :=
  let filtered := df in
  let filtered :=
    if negb (String.eqb selected_state "All States")
    then select (region_is selected_state) filtered else filtered in
  let filtered :=
    if negb (option_eqb String.eqb selected_segment (Some "All Segments"))
    then select (segment_is selected_segment) filtered else filtered in
  filtered.

(** Two listings entered with a rent of 0: neither has a category. *)
Definition two_zero_rent_csv : Csv :=
  mkCsv all_amenities [zero_rent_line; zero_rent_line].

(** * Properties *)

(** ** The order of binary64 values *)

Section FloatOrder.

Lemma SFcompare_refl (x : spec_float) :
  x <> S754_nan -> SFcompare x x = Some Eq.
Proof.
  destruct x as [s | s | | s m e]; simpl; intros H; try congruence.
  - destruct s; reflexivity.
  - rewrite Z.compare_refl.
    change (Pos.compare_cont Eq m m) with (Pos.compare m m).
    rewrite Pos.compare_refl. destruct s; reflexivity.
Qed.

Lemma SFcompare_antisym (x y : spec_float) :
  SFcompare y x = option_map CompOpp (SFcompare x y).
Proof.
  destruct x as [s1 | s1 | | s1 m1 e1], y as [s2 | s2 | | s2 m2 e2]; simpl;
    try reflexivity;
    try (destruct s1; reflexivity);
    try (destruct s2; reflexivity);
    try (destruct s1, s2; reflexivity).
  change (Pos.compare_cont Eq m1 m2) with (Pos.compare m1 m2).
  change (Pos.compare_cont Eq m2 m1) with (Pos.compare m2 m1).
  rewrite (Z.compare_antisym e1 e2), (Pos.compare_antisym m1 m2).
  destruct s1, s2; simpl; try reflexivity;
    destruct (e1 ?= e2)%Z; simpl; try reflexivity;
    destruct (m1 ?= m2)%positive; reflexivity.
Qed.

(** Chaining two comparisons neither of which is [Gt]. *)
Lemma SFcompare_trans (x y z : spec_float) (c1 c2 : comparison) :
  SFcompare x y = Some c1 -> SFcompare y z = Some c2 ->
  c1 <> Gt -> c2 <> Gt ->
  SFcompare x z = Some (match c1 with Eq => c2 | _ => Lt end).
Proof.
  destruct x as [s1 | s1 | | s1 m1 e1], y as [s2 | s2 | | s2 m2 e2],
           z as [s3 | s3 | | s3 m3 e3]; simpl; intros H1 H2 N1 N2;
    try discriminate;
    try (destruct s1; try destruct s2; try destruct s3;
         injection H1 as <-; injection H2 as <-; congruence).
  - injection H1 as <-; injection H2 as <-.
    destruct s1, s2; simpl in *; try congruence;
      destruct (e1 ?= e2)%Z; simpl in *; try congruence;
      destruct (Pos.compare_cont Eq m1 m2); simpl in *; congruence.
  - injection H1 as <-; injection H2 as <-.
    destruct s1, s2, s3; simpl in *; try congruence;
      destruct (e1 ?= e2)%Z; simpl in *; try congruence;
      destruct (Pos.compare_cont Eq m1 m2); simpl in *; congruence.
  - change (Pos.compare_cont Eq m1 m2) with (Pos.compare m1 m2) in H1.
    change (Pos.compare_cont Eq m2 m3) with (Pos.compare m2 m3) in H2.
    change (Pos.compare_cont Eq m1 m3) with (Pos.compare m1 m3).
    injection H1 as <-; injection H2 as <-.
    destruct s1, s2, s3; try congruence;
      destruct (Z.compare_spec e1 e2); try congruence;
      destruct (Z.compare_spec e2 e3); try congruence;
      subst;
      try rewrite Z.compare_refl;
      try (destruct (Pos.compare_spec m1 m2); try congruence; subst);
      try (destruct (Pos.compare_spec m2 m3); try congruence; subst);
      simpl in *; try congruence;
      try rewrite Pos.compare_refl; try reflexivity;
      try (replace (e1 ?= e3)%Z with Lt by (symmetry; apply Z.compare_lt_iff; lia));
      try (replace (e1 ?= e3)%Z with Gt by (symmetry; apply Z.compare_gt_iff; lia));
      try (replace (m1 ?= m3)%positive with Lt by (symmetry; apply Pos.compare_lt_iff; lia));
      try (replace (m1 ?= m3)%positive with Gt by (symmetry; apply Pos.compare_gt_iff; lia));
      try (replace (e2 ?= e3)%Z with Lt by (symmetry; apply Z.compare_lt_iff; lia));
      try (replace (e2 ?= e3)%Z with Gt by (symmetry; apply Z.compare_gt_iff; lia));
      try (replace (e1 ?= e2)%Z with Lt by (symmetry; apply Z.compare_lt_iff; lia));
      try (replace (e1 ?= e2)%Z with Gt by (symmetry; apply Z.compare_gt_iff; lia));
      simpl; congruence.
Qed.

Lemma SFcompare_None (x y : spec_float) :
  SFcompare x y = None <-> x = S754_nan \/ y = S754_nan.
Proof.
  destruct x as [s1 | s1 | | s1 m1 e1], y as [s2 | s2 | | s2 m2 e2]; simpl;
    split; intros H; try discriminate; auto;
    destruct H as [H | H]; discriminate.
Qed.

Lemma is_nan_Prim2SF (x : float) : is_nan x = true <-> Prim2SF x = S754_nan.
Proof.
  unfold is_nan. rewrite eqb_spec. unfold SFeqb. split.
  - intros H. destruct (Prim2SF x) eqn:E; try reflexivity;
      rewrite SFcompare_refl in H by discriminate; discriminate.
  - intros ->. reflexivity.
Qed.

Lemma is_nan_false_Prim2SF (x : float) :
  is_nan x = false <-> Prim2SF x <> S754_nan.
Proof.
  rewrite <- is_nan_Prim2SF. destruct (is_nan x); split; congruence.
Qed.

Lemma compare_defined (x y : float) :
  is_nan x = false -> is_nan y = false ->
  exists c, SFcompare (Prim2SF x) (Prim2SF y) = Some c.
Proof.
  rewrite !is_nan_false_Prim2SF. intros Hx Hy.
  destruct (SFcompare (Prim2SF x) (Prim2SF y)) as [c |] eqn:E; eauto.
  apply SFcompare_None in E. tauto.
Qed.

Lemma ltb_not_nan (x y : float) :
  (x <? y) = true -> is_nan x = false /\ is_nan y = false.
Proof.
  rewrite ltb_spec, !is_nan_false_Prim2SF. unfold SFltb. intros H.
  split; intros E; rewrite E in H; simpl in H;
    [| destruct (Prim2SF x)]; discriminate.
Qed.

Lemma leb_not_nan (x y : float) :
  (x <=? y) = true -> is_nan x = false /\ is_nan y = false.
Proof.
  rewrite leb_spec, !is_nan_false_Prim2SF. unfold SFleb. intros H.
  split; intros E; rewrite E in H; simpl in H;
    [| destruct (Prim2SF x)]; discriminate.
Qed.

(** On values that are not NaN the order is total. *)
Lemma ltb_negb_leb (x y : float) :
  is_nan x = false -> is_nan y = false -> (x <? y) = negb (y <=? x).
Proof.
  intros Hx Hy. destruct (compare_defined x y Hx Hy) as [c E].
  rewrite ltb_spec, leb_spec. unfold SFltb, SFleb.
  rewrite (SFcompare_antisym (Prim2SF x) (Prim2SF y)), E.
  destruct c; reflexivity.
Qed.

Lemma ltb_leb (x y : float) : (x <? y) = true -> (x <=? y) = true.
Proof.
  rewrite ltb_spec, leb_spec. unfold SFltb, SFleb.
  destruct (SFcompare (Prim2SF x) (Prim2SF y)) as [[ | | ] |]; congruence.
Qed.

Lemma ltb_asym (x y : float) : (x <? y) = true -> (y <? x) = false.
Proof.
  rewrite !ltb_spec. unfold SFltb.
  rewrite (SFcompare_antisym (Prim2SF x) (Prim2SF y)).
  destruct (SFcompare (Prim2SF x) (Prim2SF y)) as [[ | | ] |]; simpl; congruence.
Qed.

Lemma ltb_leb_false (x y : float) : (x <? y) = true -> (y <=? x) = false.
Proof.
  intros H. destruct (ltb_not_nan _ _ H) as [Hx Hy].
  rewrite (ltb_negb_leb x y Hx Hy) in H.
  destruct (y <=? x); simpl in H; congruence.
Qed.

Lemma leb_ltb_false (x y : float) : (x <=? y) = true -> (y <? x) = false.
Proof.
  intros H. destruct (leb_not_nan _ _ H) as [Hx Hy].
  rewrite (ltb_negb_leb y x Hy Hx), H. reflexivity.
Qed.

Lemma eqb_ltb_false (x y : float) : (x =? y) = true -> (y <? x) = false.
Proof.
  rewrite eqb_spec, ltb_spec. unfold SFeqb, SFltb.
  rewrite (SFcompare_antisym (Prim2SF x) (Prim2SF y)).
  destruct (SFcompare (Prim2SF x) (Prim2SF y)) as [[ | | ] |]; simpl; congruence.
Qed.

Lemma ltb_trans (x y z : float) :
  (x <? y) = true -> (y <? z) = true -> (x <? z) = true.
Proof.
  rewrite !ltb_spec. unfold SFltb. intros H1 H2.
  destruct (SFcompare (Prim2SF x) (Prim2SF y)) as [[ | | ] |] eqn:E1; try discriminate.
  destruct (SFcompare (Prim2SF y) (Prim2SF z)) as [[ | | ] |] eqn:E2; try discriminate.
  rewrite (SFcompare_trans _ _ _ _ _ E1 E2); [reflexivity | discriminate | discriminate].
Qed.

Lemma ltb_leb_trans (x y z : float) :
  (x <? y) = true -> (y <=? z) = true -> (x <? z) = true.
Proof.
  rewrite !ltb_spec, leb_spec. unfold SFltb, SFleb. intros H1 H2.
  destruct (SFcompare (Prim2SF x) (Prim2SF y)) as [[ | | ] |] eqn:E1; try discriminate.
  destruct (SFcompare (Prim2SF y) (Prim2SF z)) as [[ | | ] |] eqn:E2; try discriminate;
    rewrite (SFcompare_trans _ _ _ _ _ E1 E2); solve [reflexivity | discriminate].
Qed.

Lemma leb_ltb_trans (x y z : float) :
  (x <=? y) = true -> (y <? z) = true -> (x <? z) = true.
Proof.
  rewrite !ltb_spec, leb_spec. unfold SFltb, SFleb. intros H1 H2.
  destruct (SFcompare (Prim2SF y) (Prim2SF z)) as [[ | | ] |] eqn:E2; try discriminate.
  destruct (SFcompare (Prim2SF x) (Prim2SF y)) as [[ | | ] |] eqn:E1; try discriminate;
    rewrite (SFcompare_trans _ _ _ _ _ E1 E2); solve [reflexivity | discriminate].
Qed.

Lemma leb_trans (x y z : float) :
  (x <=? y) = true -> (y <=? z) = true -> (x <=? z) = true.
Proof.
  rewrite !leb_spec. unfold SFleb. intros H1 H2.
  destruct (SFcompare (Prim2SF x) (Prim2SF y)) as [[ | | ] |] eqn:E1; try discriminate;
  destruct (SFcompare (Prim2SF y) (Prim2SF z)) as [[ | | ] |] eqn:E2; try discriminate;
    rewrite (SFcompare_trans _ _ _ _ _ E1 E2); solve [reflexivity | discriminate].
Qed.

End FloatOrder.

(** ** C1: the price bands *)

Lemma cut_in_bin (x : float) (c : Category) : cut x = Some c <-> in_bin c x.
Proof.
  assert (E0 : (0 <? 500) = true) by (vm_compute; reflexivity).
  assert (E1 : (500 <? 1000) = true) by (vm_compute; reflexivity).
  assert (E2 : (1000 <? 1500) = true) by (vm_compute; reflexivity).
  unfold in_bin, cut, cut_with, bins, labels, searchsorted_left. split.
  - destruct (is_nan x) eqn:N; simpl; [discriminate |].
    destruct (0 <? x) eqn:H0; simpl; [| discriminate].
    destruct (500 <? x) eqn:H1; simpl.
    2:{ intros [= <-]; simpl. split; [exact H0 |].
        rewrite ltb_negb_leb in H1 by (assumption || reflexivity).
        destruct (x <=? 500); simpl in H1; congruence. }
    destruct (1000 <? x) eqn:H2; simpl.
    2:{ intros [= <-]; simpl. split; [exact H1 |].
        rewrite ltb_negb_leb in H2 by (assumption || reflexivity).
        destruct (x <=? 1000); simpl in H2; congruence. }
    destruct (1500 <? x) eqn:H3; simpl.
    2:{ intros [= <-]; simpl. split; [exact H2 |].
        rewrite ltb_negb_leb in H3 by (assumption || reflexivity).
        destruct (x <=? 1500); simpl in H3; congruence. }
    destruct (3000 <? x) eqn:H4; simpl; [discriminate |].
    intros [= <-]; simpl. split; [exact H3 |].
    rewrite ltb_negb_leb in H4 by (assumption || reflexivity).
    destruct (x <=? 3000); simpl in H4; congruence.
  - intros [Hlo Hhi].
    destruct (ltb_not_nan _ _ Hlo) as [_ N]. rewrite N; simpl.
    pose proof (leb_ltb_false _ _ Hhi) as Hup.
    destruct c; simpl in Hlo, Hhi, Hup.
    + rewrite Hlo, Hup. reflexivity.
    + pose proof (ltb_trans 0 500 x E0 Hlo) as H0.
      rewrite H0, Hlo, Hup. reflexivity.
    + pose proof (ltb_trans 500 1000 x E1 Hlo) as H1.
      pose proof (ltb_trans 0 500 x E0 H1) as H0.
      rewrite H0, H1, Hlo, Hup. reflexivity.
    + pose proof (ltb_trans 1000 1500 x E2 Hlo) as H2.
      pose proof (ltb_trans 500 1000 x E1 H2) as H1.
      pose proof (ltb_trans 0 500 x E0 H1) as H0.
      rewrite H0, H1, H2, Hlo, Hup. reflexivity.
Qed.

Lemma cut_missing (x : float) :
  cut x = None <->
  is_nan x = true \/ (x <=? 0) = true \/ (3000 <? x) = true.
Proof.
  split.
  - intros H. destruct (is_nan x) eqn:N; [now left | right].
    destruct (0 <? x) eqn:H0.
    + right. destruct (3000 <? x) eqn:H4; [reflexivity |].
      assert (B : in_bin Premium x \/ in_bin MidRange x \/ in_bin Economy x \/ in_bin Budget x).
      { unfold in_bin; simpl.
        assert (T : forall b, (b <? x) = negb (x <=? b) \/ is_nan b = true).
        { intros b. destruct (is_nan b) eqn:Nb; [now right | left].
          now apply ltb_negb_leb. }
        destruct (T 3000) as [T4 | T4]; [| discriminate T4].
        destruct (T 1500) as [T3 | T3]; [| discriminate T3].
        destruct (T 1000) as [T2 | T2]; [| discriminate T2].
        destruct (T 500) as [T1 | T1]; [| discriminate T1].
        rewrite T4 in H4. rewrite T3, T2, T1, H0.
        destruct (x <=? 3000), (x <=? 1500), (x <=? 1000), (x <=? 500);
          simpl in *; try discriminate; tauto. }
      destruct B as [B | [B | [B | B]]]; apply cut_in_bin in B; congruence.
    + left. rewrite ltb_negb_leb in H0 by (assumption || reflexivity).
      destruct (x <=? 0); simpl in H0; congruence.
  - intros H. destruct (cut x) as [c |] eqn:E; [exfalso | reflexivity].
    apply cut_in_bin in E. destruct E as [Hlo Hhi].
    destruct (ltb_not_nan _ _ Hlo) as [_ N].
    destruct H as [H | [H | H]].
    + congruence.
    + assert (L : (0 <=? fst (edges c)) = true) by (destruct c; vm_compute; reflexivity).
      pose proof (leb_ltb_trans _ _ _ L Hlo) as P.
      rewrite (leb_ltb_false _ _ H) in P. discriminate.
    + assert (L : (snd (edges c) <=? 3000) = true) by (destruct c; vm_compute; reflexivity).
      pose proof (leb_trans _ _ _ Hhi L) as P.
      rewrite (ltb_leb_false _ _ H) in P. discriminate.
Qed.

(** The loaded rows are the CSV lines under the ceiling, in file order, each
    with its band attached. *)
Lemma rows_load_data (csv : Csv) :
  rows (load_data csv) =
  map with_price_category
      (filter (fun c => csv_totalRent c <=? 3000) (lines csv)).
Proof.
  unfold load_data, select; simpl.
  induction (lines csv) as [| c l IH]; simpl; [reflexivity |].
  destruct (csv_totalRent c <=? 3000); simpl; now rewrite IH.
Qed.

Lemma loaded_price_category (csv : Csv) :
  Forall (fun r => price_category r = cut (totalRent r)) (rows (load_data csv)).
Proof.
  rewrite rows_load_data. apply Forall_forall. intros r H.
  apply in_map_iff in H. destruct H as [c [<- _]]. reflexivity.
Qed.

Lemma cut_500_differs :
  cut 500 = Some Budget /\ cut_left_inclusive 500 = Some Economy.
Proof. split; vm_compute; reflexivity. Qed.

(** C1 (counterexample).  At the edge 500 the loader's band is Budget, while
    bins closed on the left put 500 in Economy (likewise 1000 and 1500 fall
    one band lower than left-closed bins would put them). *)
Lemma C1_bins_not_left_inclusive :
  (cut 500 = Some Budget /\ cut_left_inclusive 500 = Some Economy) /\
  (cut 1000 = Some Economy /\ cut_left_inclusive 1000 = Some MidRange) /\
  (cut 1500 = Some MidRange /\ cut_left_inclusive 1500 = Some Premium) /\
  ~ (forall x, cut x = cut_left_inclusive x).
Proof.
  repeat split; try (vm_compute; reflexivity).
  intros H. specialize (H 500). destruct cut_500_differs as [A B].
  rewrite A, B in H. discriminate.
Qed.

(** C1 (amended).  Every loaded row carries the band [cut] gives its rent,
    and [cut] bins at the edges 0, 500, 1000, 1500, 3000 with bins open below
    and closed above: a rent is in the band of a label exactly when it is
    strictly above the band's lower edge and at most its upper edge.  So 750
    is Economy and 1500 is Mid-Range, and the edges 500 and 1000 belong to the
    band they close (Budget, Economy). *)
Theorem C1_price_category_bins :
  (forall csv, Forall (fun r => price_category r = cut (totalRent r))
                      (rows (load_data csv))) /\
  (forall x c, cut x = Some c <-> in_bin c x) /\
  map edges labels = [(0, 500); (500, 1000); (1000, 1500); (1500, 3000)] /\
  cut 750 = Some Economy /\ cut 1500 = Some MidRange /\
  cut 500 = Some Budget /\ cut 1000 = Some Economy /\ cut 3000 = Some Premium.
Proof.
  split; [exact loaded_price_category |].
  split; [exact cut_in_bin |].
  repeat split; vm_compute; reflexivity.
Qed.

(** ** C3, C10: the rent ceiling *)

Lemma Forall_select (P : Listing -> Prop) (p : Listing -> bool) (df : DataFrame) :
  Forall P (rows df) -> Forall P (rows (select p df)).
Proof.
  unfold select; simpl. rewrite !Forall_forall. intros H r Hr.
  apply filter_In in Hr. now apply H.
Qed.

Lemma Forall_filtered_df (P : Listing -> Prop) (df : DataFrame) (state segment : string) :
  Forall P (rows df) -> Forall P (rows (filtered_df df state segment)).
Proof.
  intros H. unfold filtered_df.
  destruct (negb (String.eqb state "All States")),
           (negb (String.eqb segment "All Segments"));
    repeat apply Forall_select; exact H.
Qed.

Lemma loaded_under_ceiling (csv : Csv) :
  Forall (fun r => (totalRent r <=? 3000) = true) (rows (load_data csv)).
Proof.
  unfold load_data, select; simpl. apply Forall_forall. intros r Hr.
  apply filter_In in Hr. tauto.
Qed.

(** C3.  Every row of the loaded table has a rent of at most 3000, and so has
    every row of any view the filter layer derives from it, whatever the two
    selections are. *)
Theorem C3_total_rent_ceiling :
  forall csv,
    Forall (fun r => (totalRent r <=? 3000) = true) (rows (load_data csv)) /\
    forall state segment,
      Forall (fun r => (totalRent r <=? 3000) = true)
             (rows (filtered_df (load_data csv) state segment)).
Proof.
  intros csv. split; [apply loaded_under_ceiling |].
  intros state segment. apply Forall_filtered_df, loaded_under_ceiling.
Qed.

Lemma nan_not_under_ceiling (x : float) :
  is_nan x = true -> (x <=? 3000) = false.
Proof.
  intros N. destruct (x <=? 3000) eqn:E; [| reflexivity].
  apply leb_not_nan in E. destruct E as [E _]. congruence.
Qed.

(** C10.  The comparison with the ceiling is false for a missing rent, so a
    CSV line whose rent is missing is not loaded, and no row of the loaded
    table (or of a filtered view of it) has a missing rent. *)
Theorem C10_missing_rent_dropped :
  (forall x, is_nan x = true -> (x <=? 3000) = false) /\
  forall csv,
    Forall (fun r => is_nan (totalRent r) = false) (rows (load_data csv)) /\
    (forall state segment,
        Forall (fun r => is_nan (totalRent r) = false)
               (rows (filtered_df (load_data csv) state segment))) /\
    (forall c, In c (lines csv) -> is_nan (csv_totalRent c) = true ->
               ~ In (with_price_category c) (rows (load_data csv))).
Proof.
  split; [exact nan_not_under_ceiling |].
  intros csv.
  assert (L : Forall (fun r => is_nan (totalRent r) = false) (rows (load_data csv))).
  { eapply Forall_impl; [| apply loaded_under_ceiling].
    intros r H. simpl in H. now apply leb_not_nan in H. }
  split; [exact L |]. split.
  - intros state segment. now apply Forall_filtered_df.
  - intros c _ N Hin. rewrite Forall_forall in L. apply L in Hin.
    simpl in Hin. congruence.
Qed.

(** ** C2: rows that fall in no band *)

(** Which retained rows have no band: those whose rent is not above 0. *)
Lemma loaded_without_category (csv : Csv) :
  Forall (fun r => price_category r = None <-> (totalRent r <=? 0) = true)
         (rows (load_data csv)).
Proof.
  pose proof (loaded_price_category csv) as HC.
  pose proof (loaded_under_ceiling csv) as HU.
  rewrite Forall_forall in *. intros r Hr.
  rewrite (HC r Hr), cut_missing. specialize (HU r Hr). simpl in HU. split.
  - intros [N | [Z | A]]; [| exact Z |].
    + apply leb_not_nan in HU. destruct HU; congruence.
    + rewrite (leb_ltb_false _ _ HU) in A. discriminate.
  - intros Z. right; now left.
Qed.

(** C2 (the code at the failing input).  A CSV line with a rent of 0 passes
    the ceiling filter and is retained, but 0 is outside the lowest bin, so
    the retained row has no price category; building the segment selector
    from such a table together with a categorised row fails.  In general the
    category of a retained row is the band of its rent, and it is missing
    exactly when the rent is not above 0. *)
Theorem C2_zero_rent_retained_uncategorised :
  rows (load_data (mkCsv all_amenities [zero_rent_line])) =
    [mkListing "Berlin" 0 40 false false false false false None] /\
  segments (load_data (mkCsv all_amenities [zero_rent_line; mid_range_line])) = None /\
  (forall csv,
      Forall (fun r => price_category r = cut (totalRent r) /\
                       (price_category r = None <-> (totalRent r <=? 0) = true))
             (rows (load_data csv))).
Proof.
  split; [vm_compute; reflexivity |]. split; [vm_compute; reflexivity |].
  intros csv.
  pose proof (loaded_price_category csv) as HC.
  pose proof (loaded_without_category csv) as HN.
  rewrite Forall_forall in *. intros r Hr. split; [now apply HC | now apply HN].
Qed.

(** ** C5, C6: the filter layer *)

Lemma filter_Subseq {A : Type} (p : A -> bool) (l : list A) : Subseq (filter p l) l.
Proof.
  induction l as [| x l IH]; simpl; [constructor |].
  destruct (p x); now constructor.
Qed.

Lemma filter_idem {A : Type} (p : A -> bool) (l : list A) :
  filter p (filter p l) = filter p l.
Proof.
  induction l as [| x l IH]; simpl; [reflexivity |].
  destruct (p x) eqn:E; simpl; [rewrite E, IH |]; auto.
Qed.

Lemma filter_filter {A : Type} (p q : A -> bool) (l : list A) :
  filter q (filter p l) = filter (fun x => p x && q x) l.
Proof.
  induction l as [| x l IH]; simpl; [reflexivity |].
  destruct (p x); simpl; [destruct (q x) |]; now rewrite IH.
Qed.

Lemma filter_true {A : Type} (l : list A) : filter (fun _ => true) l = l.
Proof. induction l as [| x l IH]; simpl; [| rewrite IH]; reflexivity. Qed.

(** Both steps of the filter layer as one selection of rows. *)
Lemma filtered_df_select (df : DataFrame) (state segment : string) :
  filtered_df df state segment = select (selection state segment) df.
Proof.
  unfold filtered_df, select, selection.
  destruct (String.eqb state "All States"), (String.eqb segment "All Segments");
    simpl; try rewrite filter_filter; destruct df as [cols rs]; simpl; f_equal;
    try solve [symmetry; apply filter_true];
    apply filter_ext; intros r; simpl; rewrite ?andb_true_r; reflexivity.
Qed.

Lemma selection_kept (state segment : string) (r : Listing) :
  selection state segment r = true <-> kept state segment r.
Proof.
  unfold selection, kept.
  rewrite andb_true_iff, !orb_true_iff, !String.eqb_eq.
  destruct (price_category r) as [c |].
  - rewrite String.eqb_eq. split; intros [H1 H2]; (split; [exact H1 |]).
    + destruct H2 as [H2 | H2]; [now left | right; now exists c].
    + destruct H2 as [H2 | [c' [[= <-] H2]]]; [now left | now right].
  - split; intros [H1 H2]; (split; [exact H1 |]).
    + destruct H2 as [H2 | H2]; [now left | discriminate].
    + destruct H2 as [H2 | [c' [H2 _]]]; [now left | discriminate].
Qed.

(** C5.  With both sentinels selected the filter layer returns its input.  For
    any selections it returns a frame with the same columns whose rows are
    those of the input that satisfy the equality predicates selected, in
    their original order: a row is kept exactly when its region equals the
    selected state (unless the state sentinel is selected) and it has a price
    category whose label equals the selected segment (unless the segment
    sentinel is selected).  It is a total function. *)
Theorem C5_filter_subset :
  (forall df, filtered_df df "All States" "All Segments" = df) /\
  (forall df state segment,
      columns (filtered_df df state segment) = columns df /\
      rows (filtered_df df state segment) = filter (selection state segment) (rows df) /\
      Subseq (rows (filtered_df df state segment)) (rows df) /\
      (forall r,
          In r (rows (filtered_df df state segment)) <->
          In r (rows df) /\
          (state = "All States" \/ regio1 r = state) /\
          (segment = "All Segments" \/
           exists c, price_category r = Some c /\ label c = segment))).
Proof.
  split; [reflexivity |].
  intros df state segment. rewrite filtered_df_select. simpl.
  split; [reflexivity |]. split; [reflexivity |].
  split; [apply filter_Subseq |].
  intros r. rewrite filter_In, selection_kept. reflexivity.
Qed.

(** C6.  Filtering a table that was already filtered with the same two
    selections changes nothing. *)
Theorem C6_filter_idempotent :
  forall df state segment,
    filtered_df (filtered_df df state segment) state segment
    = filtered_df df state segment.
Proof.
  intros df state segment. rewrite !filtered_df_select.
  unfold select; simpl. now rewrite filter_idem.
Qed.

(** ** C4: the price per square metre *)

Lemma Prim2SF_zero_of_eqb (x : float) :
  (x =? 0) = true -> exists s, Prim2SF x = S754_zero s.
Proof.
  rewrite eqb_spec. unfold SFeqb.
  replace (Prim2SF 0) with (S754_zero false) by (vm_compute; reflexivity).
  destruct (Prim2SF x) as [s | s | | s m e]; simpl; intros H;
    try discriminate; eauto; destruct s; discriminate.
Qed.

Lemma Prim2SF_nonzero_of_eqb (x : float) :
  (x =? 0) = false -> forall s, Prim2SF x <> S754_zero s.
Proof.
  rewrite eqb_spec. unfold SFeqb.
  replace (Prim2SF 0) with (S754_zero false) by (vm_compute; reflexivity).
  intros H s E. rewrite E in H. discriminate.
Qed.

Lemma is_nan_of_Prim2SF (x : float) : Prim2SF x = S754_nan -> is_nan x = true.
Proof. apply is_nan_Prim2SF. Qed.

Lemma div_nan_l (x y : float) : is_nan x = true -> is_nan (x / y) = true.
Proof.
  intros N. apply is_nan_Prim2SF in N. apply is_nan_of_Prim2SF.
  rewrite div_spec, N. reflexivity.
Qed.

Lemma div_nan_r (x y : float) : is_nan y = true -> is_nan (x / y) = true.
Proof.
  intros N. apply is_nan_Prim2SF in N. apply is_nan_of_Prim2SF.
  rewrite div_spec, N. unfold SF64div. destruct (Prim2SF x); reflexivity.
Qed.

Lemma div_zero_zero (x y : float) :
  (x =? 0) = true -> (y =? 0) = true -> is_nan (x / y) = true.
Proof.
  intros Hx Hy.
  destruct (Prim2SF_zero_of_eqb x Hx) as [sx Ex].
  destruct (Prim2SF_zero_of_eqb y Hy) as [sy Ey].
  apply is_nan_of_Prim2SF. rewrite div_spec, Ex, Ey. reflexivity.
Qed.

(** A non-zero value divided by zero is an infinity, which is not NaN. *)
Lemma div_by_zero (x y : float) :
  (y =? 0) = true -> is_nan x = false -> (x =? 0) = false ->
  (x / y = infinity \/ x / y = neg_infinity) /\ is_nan (x / y) = false.
Proof.
  intros Hy Nx Zx.
  destruct (Prim2SF_zero_of_eqb y Hy) as [sy Ey].
  apply is_nan_false_Prim2SF in Nx.
  pose proof (Prim2SF_nonzero_of_eqb x Zx) as Nz.
  assert (E : exists b, Prim2SF (x / y) = S754_infinity b).
  { rewrite div_spec, Ey. unfold SF64div.
    destruct (Prim2SF x) as [s | s | | s m e]; simpl; eauto.
    - exfalso. now apply (Nz s).
    - congruence. }
  destruct E as [b E]. split.
  - destruct b; [right | left]; apply Prim2SF_inj; rewrite E;
      vm_compute; reflexivity.
  - apply is_nan_false_Prim2SF. rewrite E. discriminate.
Qed.

Lemma dropna_app (l1 l2 : list float) : dropna (l1 ++ l2) = dropna l1 ++ dropna l2.
Proof. apply filter_app. Qed.

Lemma fill_zero_app (l1 l2 : list float) :
  fill_zero (l1 ++ l2) = fill_zero l1 ++ fill_zero l2.
Proof. apply map_app. Qed.

(** Splitting is bounded by the length: any two amounts of fuel that reach
    the length give the same sum. *)
Lemma pairwise_sum_fuel (fuel1 fuel2 : nat) (xs : list float) :
  (List.length xs <= fuel1)%nat -> (List.length xs <= fuel2)%nat ->
  pairwise_sum fuel1 xs = pairwise_sum fuel2 xs.
Proof.
  revert fuel2 xs. induction fuel1 as [| f1 IH]; intros fuel2 xs H1 H2.
  - destruct xs; [| simpl in H1; lia]. destruct fuel2; reflexivity.
  - destruct fuel2 as [| f2].
    + destruct xs; [reflexivity | simpl in H2; lia].
    + cbn [pairwise_sum].
      destruct (Nat.ltb (List.length xs) 8) eqn:E8; [reflexivity |].
      destruct (Nat.leb (List.length xs) 128) eqn:E128; [reflexivity |].
      apply Nat.leb_gt in E128.
      set (n := List.length xs) in *.
      assert (Hh : (n / 2 < n)%nat) by (apply Nat.div_lt; lia).
      assert (Hm : ((n / 2) mod 8 <= n / 2)%nat) by (apply Nat.Div0.mod_le).
      assert (Hq : (64 <= n / 2)%nat).
      { change 64%nat with (128 / 2)%nat. apply Nat.Div0.div_le_mono. lia. }
      assert (Hr : ((n / 2) mod 8 < 8)%nat) by (apply Nat.mod_upper_bound; lia).
      f_equal; apply IH; rewrite ?length_firstn, ?length_skipn; fold n; lia.
Qed.

(** A cell that is NaN adds a zero to the sum and nothing to the count. *)
Lemma mean_nan_cell (l1 l2 : list float) (x : float) :
  is_nan x = true ->
  mean (l1 ++ x :: l2)
  = if Nat.ltb 0 (List.length (dropna l1) + List.length (dropna l2))
    then np_sum (fill_zero l1 ++ 0 :: fill_zero l2)
         / of_nat (List.length (dropna l1) + List.length (dropna l2))
    else nan.
Proof.
  intros N. unfold mean.
  rewrite dropna_app, fill_zero_app, length_app.
  change (dropna (x :: l2))
    with (if negb (is_nan x) then x :: dropna l2 else dropna l2).
  change (fill_zero (x :: l2))
    with ((if is_nan x then 0 else x) :: fill_zero l2).
  rewrite N. reflexivity.
Qed.

(** C4 (counterexample).  With the living space of one listing entered as 0,
    that listing's ratio is infinite and is not left out: the metric is
    infinite, where a mean that excludes the row would be 20. *)
Lemma C4_zero_space_not_excluded :
  Metrics.price_per_sqm (load_data zero_space_csv) = infinity /\
  price_per_sqm_excluding (load_data zero_space_csv) = 20 /\
  Metrics.price_per_sqm (load_data zero_space_csv)
    <> price_per_sqm_excluding (load_data zero_space_csv).
Proof.
  assert (A : Metrics.price_per_sqm (load_data zero_space_csv) = infinity)
    by (vm_compute; reflexivity).
  assert (B : price_per_sqm_excluding (load_data zero_space_csv) = 20)
    by (vm_compute; reflexivity).
  repeat split; try assumption.
  rewrite A, B. intros H.
  assert (C : (infinity <? 21) = (20 <? 21)) by (rewrite H; reflexivity).
  vm_compute in C. discriminate.
Qed.

(** C4 (amended).  The metric is the sum of the per-row quotients
    totalRent / livingSpace, a NaN quotient counted as 0, divided by the
    number of rows whose quotient is not NaN (NaN when there is no such row):
    the mean of the defined per-row quotients, in numpy's order of summation,
    not the quotient of the two column means.  A row whose quotient is NaN
    adds a zero to the sum and nothing to the count, and the quotient is NaN
    when the living space is missing, the rent is missing, or both are zero.
    A row whose living space is zero and whose rent is neither zero nor
    missing has an infinite quotient, which is not NaN and so is counted.  On
    the two-listing Berlin table the region filter keeps both rows, the
    average rent is 800 and the metric is mean(10, 20) = 15, where the
    quotient of the means would be 16. *)
Theorem C4_price_per_sqm :
  (forall df,
      Metrics.price_per_sqm df
      = if Nat.ltb 0 (List.length (dropna (map Metrics.ratio (rows df))))
        then np_sum (fill_zero (map Metrics.ratio (rows df)))
             / of_nat (List.length (dropna (map Metrics.ratio (rows df))))
        else nan) /\
  (forall xs fuel,
      (List.length xs <= fuel)%nat ->
      0 + pairwise_sum fuel xs = np_sum xs) /\
  (forall cols l1 r l2,
      is_nan (Metrics.ratio r) = true ->
      Metrics.price_per_sqm (mkFrame cols (l1 ++ r :: l2))
      = if Nat.ltb 0 (List.length (dropna (map Metrics.ratio l1))
                      + List.length (dropna (map Metrics.ratio l2)))
        then np_sum (fill_zero (map Metrics.ratio l1)
                     ++ 0 :: fill_zero (map Metrics.ratio l2))
             / of_nat (List.length (dropna (map Metrics.ratio l1))
                       + List.length (dropna (map Metrics.ratio l2)))
        else nan) /\
  (forall r,
      is_nan (livingSpace r) = true \/ is_nan (totalRent r) = true \/
      ((livingSpace r =? 0) = true /\ (totalRent r =? 0) = true) ->
      is_nan (Metrics.ratio r) = true) /\
  (forall r,
      (livingSpace r =? 0) = true ->
      is_nan (totalRent r) = false -> (totalRent r =? 0) = false ->
      (Metrics.ratio r = infinity \/ Metrics.ratio r = neg_infinity) /\
      is_nan (Metrics.ratio r) = false) /\
  (let df := filtered_df (load_data berlin_csv) "Berlin" "All Segments" in
   df = load_data berlin_csv /\
   map Metrics.ratio (rows df) = [10; 20] /\
   Metrics.total_listings df = 2%nat /\
   Metrics.avg_rent df = 800 /\
   Metrics.price_per_sqm df = 15 /\
   Metrics.avg_rent df / Metrics.avg_space df = 16).
Proof.
  split; [reflexivity |]. split.
  { intros xs fuel H. unfold np_sum. f_equal.
    apply pairwise_sum_fuel; [exact H | apply Nat.le_refl]. }
  split.
  { intros cols l1 r l2 N. unfold Metrics.price_per_sqm; simpl.
    rewrite !map_app; simpl. now apply mean_nan_cell. }
  split.
  { intros r [N | [N | [Z1 Z2]]]; unfold Metrics.ratio.
    - now apply div_nan_r.
    - now apply div_nan_l.
    - now apply div_zero_zero. }
  split.
  { intros r Z N NZ. unfold Metrics.ratio. now apply div_by_zero. }
  repeat split; vm_compute; reflexivity.
Qed.

(** ** Insertion sort and [sort_values] *)

Section SortFacts.
Context {A : Type}.
Variable by_ : A -> float.

Let lt (a b : A) : bool := by_ a <? by_ b.
Let asc (a b : A) : Prop := (by_ a <=? by_ b) = true.
Let defined (a : A) : Prop := is_nan (by_ a) = false.

Lemma insert_perm (ltb : A -> A -> bool) (x : A) (l : list A) :
  Permutation (insert ltb x l) (x :: l).
Proof.
  induction l as [| y l IH]; simpl; [reflexivity |].
  destruct (ltb x y); [reflexivity |].
  rewrite IH. apply perm_swap.
Qed.

Lemma insertion_sort_acc_perm (ltb : A -> A -> bool) (l acc : list A) :
  Permutation (fold_left (fun acc x => insert ltb x acc) l acc) (acc ++ l).
Proof.
  revert acc. induction l as [| x l IH]; intros acc; simpl.
  - now rewrite app_nil_r.
  - rewrite IH, insert_perm. apply Permutation_middle.
Qed.

Lemma insertion_sort_perm (ltb : A -> A -> bool) (l : list A) :
  Permutation (insertion_sort ltb l) l.
Proof. apply (insertion_sort_acc_perm ltb l []). Qed.

Lemma insert_sorted (x : A) (l : list A) :
  defined x -> Forall defined l ->
  StronglySorted asc l -> StronglySorted asc (insert lt x l).
Proof.
  intros Dx Dl S. induction S as [| y l S IH F]; simpl.
  - repeat constructor.
  - inversion Dl as [| ? ? Dy Dl']; subst.
    unfold lt at 1. destruct (by_ x <? by_ y) eqn:E.
    + constructor; [now constructor |].
      constructor; [now apply ltb_leb |].
      rewrite Forall_forall in *. intros z Hz.
      apply leb_trans with (by_ y); [now apply ltb_leb | now apply F].
    + constructor; [now apply IH |].
      rewrite Forall_forall in *. intros z Hz.
      apply (Permutation_in _ (insert_perm lt x l)) in Hz.
      destruct Hz as [<- | Hz]; [| now apply F].
      unfold asc. rewrite ltb_negb_leb in E by assumption.
      destruct (by_ y <=? by_ x); simpl in E; congruence.
Qed.

Lemma insertion_sort_acc_sorted (l acc : list A) :
  Forall defined l -> Forall defined acc -> StronglySorted asc acc ->
  StronglySorted asc (fold_left (fun acc x => insert lt x acc) l acc).
Proof.
  revert acc. induction l as [| x l IH]; intros acc Dl Da S; simpl; [exact S |].
  inversion Dl as [| ? ? Dx Dl']; subst.
  apply IH; [assumption | | now apply insert_sorted].
  rewrite Forall_forall in *. intros z Hz.
  apply (Permutation_in _ (insert_perm lt x acc)) in Hz.
  destruct Hz as [<- | Hz]; auto.
Qed.

Lemma StronglySorted_app (R : A -> A -> Prop) (l1 l2 : list A) :
  StronglySorted R l1 -> StronglySorted R l2 ->
  (forall a b, In a l1 -> In b l2 -> R a b) ->
  StronglySorted R (l1 ++ l2).
Proof.
  intros S1 S2 H. induction S1 as [| x l1 S1 IH F]; simpl; [exact S2 |].
  constructor.
  - apply IH. intros a b Ha Hb. apply H; [now right | exact Hb].
  - apply Forall_app. split; [exact F |].
    apply Forall_forall. intros b Hb. apply H; [now left | exact Hb].
Qed.

Lemma StronglySorted_rev (R : A -> A -> Prop) (l : list A) :
  StronglySorted R l -> StronglySorted (fun a b => R b a) (rev l).
Proof.
  intros S. induction S as [| x l S IH F]; simpl; [constructor |].
  apply StronglySorted_app; [exact IH | repeat constructor |].
  intros a b Ha [<- | []]. apply in_rev in Ha.
  rewrite Forall_forall in F. now apply F.
Qed.

Lemma StronglySorted_weaken (R Q : A -> A -> Prop) (l : list A) :
  (forall a b, R a b -> Q a b) -> StronglySorted R l -> StronglySorted Q l.
Proof.
  intros H S. induction S as [| x l S IH F]; constructor; [exact IH |].
  eapply Forall_impl; [| exact F]. intros b. apply H.
Qed.

Lemma filter_partition_perm (p : A -> bool) (l : list A) :
  Permutation (filter (fun a => negb (p a)) l ++ filter p l) l.
Proof.
  induction l as [| x l IH]; simpl; [reflexivity |].
  destruct (p x); simpl.
  - rewrite <- Permutation_middle. now constructor.
  - now constructor.
Qed.

Lemma sort_values_desc_perm (l : list A) :
  Permutation (sort_values_desc by_ l) l.
Proof.
  unfold sort_values_desc.
  rewrite <- (filter_partition_perm (fun a => is_nan (by_ a)) l) at 3.
  apply Permutation_app_tail.
  rewrite <- Permutation_rev, insertion_sort_perm, <- Permutation_rev.
  reflexivity.
Qed.

Lemma sort_values_desc_length (l : list A) :
  List.length (sort_values_desc by_ l) = List.length l.
Proof. apply Permutation_length, sort_values_desc_perm. Qed.

(** The result of [sort_values] is descending, rows with a NaN key last. *)
Lemma sort_values_desc_sorted (l : list A) : sorted_desc by_ (sort_values_desc by_ l).
Proof.
  unfold sorted_desc, sort_values_desc.
  set (non_nans := filter (fun a => negb (is_nan (by_ a))) l).
  set (nans := filter (fun a => is_nan (by_ a)) l).
  assert (Dn : Forall defined non_nans).
  { apply Forall_forall. intros a Ha. apply filter_In in Ha.
    destruct Ha as [_ Ha]. unfold defined.
    destruct (is_nan (by_ a)); [discriminate | reflexivity]. }
  assert (Un : Forall (fun a => is_nan (by_ a) = true) nans).
  { apply Forall_forall. intros a Ha. apply filter_In in Ha. tauto. }
  assert (Ds : Forall defined (rev non_nans)).
  { apply Forall_forall. intros a Ha. apply in_rev in Ha.
    rewrite Forall_forall in Dn. now apply Dn. }
  pose proof (insertion_sort_acc_sorted (rev non_nans) [] Ds
                (Forall_nil _) (SSorted_nil _)) as S.
  apply StronglySorted_rev in S.
  apply StronglySorted_app.
  - eapply StronglySorted_weaken; [| exact S].
    intros a b H. simpl in H. unfold precedes. unfold asc in H. rewrite H. apply orb_true_r.
  - clear S. induction nans as [| a nans' IH]; [constructor |].
    inversion Un as [| ? ? Ha Un']; subst.
    constructor; [now apply IH |].
    eapply Forall_impl; [| exact Un'].
    intros b Hb. unfold precedes. simpl in Hb. now rewrite Hb.
  - intros a b _ Hb. rewrite Forall_forall in Un.
    unfold precedes. now rewrite (Un b Hb).
Qed.

End SortFacts.

(** ** C7, C8: the amenities analysis *)

Lemma amenity_loop_flat_map (df : DataFrame) (todo : list Amenity) (acc : list AmenityResult) :
  amenity_loop df todo acc = acc ++ flat_map (appended df) todo.
Proof.
  revert acc. induction todo as [| a todo IH]; intros acc; simpl.
  - now rewrite app_nil_r.
  - unfold appended at 1. destruct (amenity_entry df a) as [e |]; rewrite IH.
    + now rewrite <- app_assoc.
    + reflexivity.
Qed.

Lemma amenity_results_flat_map (df : DataFrame) :
  amenity_results df = flat_map (appended df) amenities.
Proof. apply (amenity_loop_flat_map df amenities []). Qed.

Lemma amenity_entry_inv (df : DataFrame) (a : Amenity) (e : AmenityResult) :
  amenity_entry df a = Some e ->
  has_column df (name a) = true /\
  (0 <? without_amenity df a) = true /\
  amenity e = name a /\
  premium_pct e
  = ((with_amenity df a - without_amenity df a) / without_amenity df a) * 100 /\
  prevalence e
  = (of_nat (count_true df a) / of_nat (List.length (rows df))) * 100.
Proof.
  unfold amenity_entry.
  destruct (has_column df (name a)); [| discriminate].
  destruct (0 <? without_amenity df a); [| discriminate].
  intros [= <-]. simpl. repeat split.
Qed.

Lemma Amenity_eqb_eq (a b : Amenity) : Amenity_eqb a b = true <-> a = b.
Proof. destruct a, b; simpl; split; intros H; congruence. Qed.

Lemma name_inj (a b : Amenity) : name a = name b -> a = b.
Proof. destruct a, b; simpl; intros H; congruence. Qed.

Lemma in_amenity_results (df : DataFrame) (e : AmenityResult) :
  In e (amenity_results df) <->
  exists a, In a amenities /\ amenity_entry df a = Some e.
Proof.
  rewrite amenity_results_flat_map, in_flat_map. unfold appended.
  split; intros [a [Ha H]]; exists a; split; try exact Ha.
  - destruct (amenity_entry df a) as [e' |]; simpl in H; [| tauto].
    destruct H as [<- | []]. reflexivity.
  - rewrite H. now left.
Qed.

Lemma flat_map_without (df : DataFrame) (a : Amenity) (l : list Amenity) :
  amenity_entry df a = None ->
  flat_map (appended df) l
  = flat_map (appended df) (filter (fun b => negb (Amenity_eqb b a)) l).
Proof.
  intros H. induction l as [| b l IH]; simpl; [reflexivity |].
  destruct (Amenity_eqb b a) eqn:E; simpl.
  - apply Amenity_eqb_eq in E. subst b. unfold appended at 1. now rewrite H.
  - now rewrite IH.
Qed.

(** C7.  When the mean rent of the listings without an amenity is zero, the
    loop appends nothing for that amenity: no row of the result carries its
    name, nothing is raised, and the result is what the loop gives for the
    other amenities, in their order. *)
Theorem C7_zero_baseline_omitted (df : DataFrame) (a : Amenity) :
  (without_amenity df a =? 0) = true ->
  amenity_entry df a = None /\
  ~ In (name a) (map amenity (amenity_results df)) /\
  amenity_results df
  = flat_map (appended df) (filter (fun b => negb (Amenity_eqb b a)) amenities).
Proof.
  intros Z.
  assert (N : amenity_entry df a = None).
  { unfold amenity_entry. rewrite (eqb_ltb_false _ _ Z).
    destruct (has_column df (name a)); reflexivity. }
  split; [exact N |]. split.
  - intros H. apply in_map_iff in H. destruct H as [e [He Hin]].
    apply in_amenity_results in Hin. destruct Hin as [b [_ Hb]].
    destruct (amenity_entry_inv _ _ _ Hb) as [_ [_ [Hn _]]].
    rewrite Hn in He. apply name_inj in He. subst b. congruence.
  - rewrite amenity_results_flat_map. now apply flat_map_without.
Qed.

Lemma C7_zero_baseline_witness :
  (without_amenity (load_data zero_baseline_csv) Balcony =? 0) = true /\
  amenity_entry (load_data zero_baseline_csv) Balcony = None /\
  ~ In "balcony" (map amenity (amenity_results (load_data zero_baseline_csv))) /\
  amenity_results (load_data zero_baseline_csv)
  = flat_map (appended (load_data zero_baseline_csv)) [HasKitchen; Lift; Garden; Cellar].
Proof.
  split; [vm_compute; reflexivity |].
  apply (C7_zero_baseline_omitted (load_data zero_baseline_csv) Balcony).
  vm_compute; reflexivity.
Defined.

(** C8 (counterexample).  The table has the column balcony, but every listing
    has a balcony: the baseline is undefined, the guard fails, and no premium
    or prevalence is computed for the column; the result is empty and no
    frame is built. *)
Lemma C8_present_column_without_row :
  has_column (load_data all_balcony_csv) (name Balcony) = true /\
  amenity_entry (load_data all_balcony_csv) Balcony = None /\
  amenity_results (load_data all_balcony_csv) = [] /\
  amenity_df (load_data all_balcony_csv) = None /\
  ~ (forall df a, has_column df (name a) = true ->
                  exists e, In e (amenity_results df) /\ amenity e = name a).
Proof.
  assert (A : amenity_results (load_data all_balcony_csv) = [])
    by (vm_compute; reflexivity).
  repeat split; try (vm_compute; reflexivity).
  intros H.
  destruct (H (load_data all_balcony_csv) Balcony) as [e [He _]].
  - vm_compute. reflexivity.
  - rewrite A in He. exact He.
Qed.

(** C8 (amended).  The rows of the result are exactly the records of the
    amenity columns of the table whose baseline (the mean rent without the
    amenity) is positive: such a column gets the premium
    ((with - without) / without) * 100 and the prevalence
    (number of true cells / number of rows) * 100, and a column whose
    baseline is not positive gets no row.  The frame shown is a reordering of
    these records that is descending in the premium, rows with an undefined
    premium last.  With two balcony listings averaging 1000, two others
    averaging 800 the record is premium 25, prevalence 50. *)
Theorem C8_amenity_premium :
  (forall df e,
      In e (amenity_results df) <->
      exists a,
        has_column df (name a) = true /\
        (0 <? without_amenity df a) = true /\
        e = mkAmenityResult
              (name a)
              (((with_amenity df a - without_amenity df a) / without_amenity df a) * 100)
              ((of_nat (count_true df a) / of_nat (List.length (rows df))) * 100)) /\
  (forall df a,
      (0 <? without_amenity df a) = false ->
      ~ In (name a) (map amenity (amenity_results df))) /\
  (forall df l,
      amenity_df df = Some l ->
      Permutation l (amenity_results df) /\ sorted_desc premium_pct l) /\
  (forall df,
      has_column df "balcony" = true ->
      with_amenity df Balcony = 1000 -> without_amenity df Balcony = 800 ->
      count_true df Balcony = 2%nat -> List.length (rows df) = 4%nat ->
      In (mkAmenityResult "balcony" 25 50) (amenity_results df)) /\
  (with_amenity (load_data balcony_csv) Balcony = 1000 /\
   without_amenity (load_data balcony_csv) Balcony = 800 /\
   amenity_df (load_data balcony_csv) = Some [mkAmenityResult "balcony" 25 50]) /\
  (amenity_results (load_data two_amenities_csv)
   = [mkAmenityResult "balcony" 0 50; mkAmenityResult "lift" 200 50] /\
   amenity_df (load_data two_amenities_csv)
   = Some [mkAmenityResult "lift" 200 50; mkAmenityResult "balcony" 0 50]).
Proof.
  assert (R : forall df e,
      In e (amenity_results df) <->
      exists a,
        has_column df (name a) = true /\
        (0 <? without_amenity df a) = true /\
        e = mkAmenityResult
              (name a)
              (((with_amenity df a - without_amenity df a) / without_amenity df a) * 100)
              ((of_nat (count_true df a) / of_nat (List.length (rows df))) * 100)).
  { intros df e. rewrite in_amenity_results. split.
    - intros [a [_ H]]. exists a.
      destruct (amenity_entry_inv _ _ _ H) as [C [G [N [P V]]]].
      split; [exact C |]. split; [exact G |].
      destruct e as [n p v]. simpl in N, P, V. now subst.
    - intros [a [C [G ->]]]. exists a. split; [destruct a; simpl; tauto |].
      unfold amenity_entry. now rewrite C, G. }
  split; [exact R |]. split.
  { intros df a G H. apply in_map_iff in H. destruct H as [e [He Hin]].
    apply R in Hin. destruct Hin as [b [_ [Gb ->]]]. simpl in He.
    apply name_inj in He. subst b. congruence. }
  split.
  { intros df l H. unfold amenity_df in H.
    destruct (amenity_results df) as [| e0 rs] eqn:E; [discriminate |].
    injection H as <-. split.
    - apply sort_values_desc_perm.
    - apply sort_values_desc_sorted. }
  split.
  { intros df C W WO CT L. apply R. exists Balcony.
    simpl name. rewrite W, WO, CT, L.
    split; [exact C |]. split; vm_compute; reflexivity. }
  repeat split; vm_compute; reflexivity.
Qed.

(** ** C9: the number of groups *)

Section Unique.
Context {A : Type}.
Variable eqb : A -> A -> bool.
Hypothesis eqb_eq : forall a b, eqb a b = true <-> a = b.

Lemma unique_In (x : A) (l : list A) : In x (unique eqb l) <-> In x l.
Proof.
  induction l as [| y l IH]; simpl; [reflexivity |].
  rewrite filter_In, IH. split.
  - intros [H | [H _]]; auto.
  - intros [H | H]; [now left |].
    destruct (eqb x y) eqn:E.
    + left. symmetry. now apply eqb_eq.
    + right. split; [exact H | reflexivity].
Qed.

Lemma unique_NoDup (l : list A) : NoDup (unique eqb l).
Proof.
  induction l as [| y l IH]; simpl; constructor.
  - rewrite filter_In. intros [_ H].
    assert (E : eqb y y = true) by now apply eqb_eq.
    rewrite E in H. discriminate.
  - now apply NoDup_filter.
Qed.

End Unique.

Lemma group_agg {K : Type} (f : K -> list Listing) (keys : list K) :
  map group (map (fun k => agg k (f k)) keys) = keys.
Proof.
  rewrite map_map. simpl. apply map_id.
Qed.

Lemma NoDup_labels : NoDup labels.
Proof.
  unfold labels. repeat constructor; simpl; intuition discriminate.
Qed.

Lemma in_category_iff (c : Category) (r : Listing) :
  in_category c r = true <-> price_category r = Some c.
Proof.
  unfold in_category. destruct (price_category r) as [c' |]; simpl.
  - destruct c', c; simpl; split; intros H; congruence.
  - split; discriminate.
Qed.

(** The groups of [segment_data], as a list of categories. *)
Lemma segment_data_groups (observed : bool) (df : DataFrame) :
  map group (segment_data observed df)
  = if observed then filter (fun c => existsb (in_category c) (rows df)) labels
    else labels.
Proof. unfold segment_data. apply group_agg. Qed.

Lemma state_data_length (df : DataFrame) :
  List.length (state_data df)
  = List.length (unique String.eqb (map regio1 (rows df))).
Proof.
  unfold state_data. rewrite sort_values_desc_length, length_map.
  apply Permutation_length, insertion_sort_perm.
Qed.

(** C9 (counterexample).  A table with listings in seventeen regions gives a
    geography table of seventeen rows.  All its rents are in the Economy
    band, and under the older [groupby] default the segment table still has
    the four categories. *)
Lemma C9_seventeen_regions :
  List.length (state_data (filtered_df (load_data seventeen_regions_csv)
                                       "All States" "All Segments")) = 17%nat /\
  ~ (forall df, List.length (state_data df) <= 16)%nat /\
  map price_category (rows (load_data seventeen_regions_csv))
  = repeat (Some Economy) 17 /\
  map group (segment_data false (load_data seventeen_regions_csv))
  = [Budget; Economy; MidRange; Premium].
Proof.
  assert (A : List.length (state_data (filtered_df (load_data seventeen_regions_csv)
                                         "All States" "All Segments")) = 17%nat)
    by (vm_compute; reflexivity).
  split; [exact A |]. split.
  - intros H.
    specialize (H (filtered_df (load_data seventeen_regions_csv)
                               "All States" "All Segments")).
    rewrite A in H. lia.
  - split; vm_compute; reflexivity.
Qed.

(** C9 (amended).  [segment_data] never has more than four rows: its groups
    are distinct price categories, and every category that occurs in the
    table has its row.  When [groupby] keeps observed categories only, the
    groups are exactly the categories that occur; with the older default
    every one of the four categories has a row.  [state_data] has exactly one
    row per distinct region of the table, so its number of rows is the number
    of distinct regions, whatever that number is. *)
Theorem C9_group_row_counts :
  (forall observed df,
      (List.length (segment_data observed df) <= 4)%nat /\
      NoDup (map group (segment_data observed df)) /\
      (forall c, (exists r, In r (rows df) /\ price_category r = Some c) ->
                 In c (map group (segment_data observed df)))) /\
  (forall df c,
      In c (map group (segment_data true df)) <->
      exists r, In r (rows df) /\ price_category r = Some c) /\
  (forall df, map group (segment_data false df) = labels) /\
  (forall df,
      exists regions,
        NoDup regions /\
        (forall s, In s regions <-> exists r, In r (rows df) /\ regio1 r = s) /\
        Permutation (map group (state_data df)) regions /\
        List.length (state_data df) = List.length regions).
Proof.
  assert (P : forall df c,
             In c (filter (fun c => existsb (in_category c) (rows df)) labels) <->
             exists r, In r (rows df) /\ price_category r = Some c).
  { intros df c. rewrite filter_In, existsb_exists. split.
    - intros [_ [r [Hr Hc]]]. exists r. split; [exact Hr |].
      now apply in_category_iff.
    - intros [r [Hr Hc]]. split.
      + destruct c; simpl; tauto.
      + exists r. split; [exact Hr |]. now apply in_category_iff. }
  split.
  { intros observed df. split; [| split].
    - rewrite <- (length_map group), segment_data_groups.
      destruct observed; [| simpl; lia].
      etransitivity; [apply filter_length_le | simpl; lia].
    - rewrite segment_data_groups. destruct observed.
      + apply NoDup_filter, NoDup_labels.
      + apply NoDup_labels.
    - intros c H. rewrite segment_data_groups. destruct observed.
      + now apply P.
      + destruct c; simpl; tauto. }
  split.
  { intros df c. rewrite segment_data_groups. apply P. }
  split.
  { intros df. apply segment_data_groups. }
  intros df. exists (unique String.eqb (map regio1 (rows df))).
  split; [apply unique_NoDup, String.eqb_eq |]. split; [| split].
  - intros s. rewrite (unique_In String.eqb String.eqb_eq), in_map_iff.
    split; intros [r [A B]]; exists r; tauto.
  - unfold state_data.
    rewrite (Permutation_map group (sort_values_desc_perm avg_rent _)).
    rewrite group_agg. apply insertion_sort_perm.
  - apply state_data_length.
Qed.

(** * Further properties of the code *)

(** ** Binning and loading *)

(** X1.  The bands are ordered like the rents: of two rents that both get a
    band, the larger one never gets the lower band. *)
Theorem cut_monotone (x y : float) (c d : Category) :
  (x <=? y) = true -> cut x = Some c -> cut y = Some d ->
  (rank c <= rank d)%nat.
Proof.
  intros Hxy Hc Hd.
  apply cut_in_bin in Hc. apply cut_in_bin in Hd.
  destruct Hc as [Lc _]. destruct Hd as [_ Ud].
  pose proof (ltb_leb_trans _ _ _ (ltb_leb_trans _ _ _ Lc Hxy) Ud) as H.
  destruct c, d; simpl in *; try lia;
    exfalso;
    match type of H with
    | (?a <? ?b) = true =>
        assert (E : (b <=? a) = true) by (vm_compute; reflexivity);
        rewrite (leb_ltb_false _ _ E) in H; discriminate
    end.
Qed.

Lemma cut_monotone_witness :
  (750 <=? 1500) = true /\ cut 750 = Some Economy /\ cut 1500 = Some MidRange /\
  (rank Economy <= rank MidRange)%nat.
Proof.
  assert (A : (750 <=? 1500) = true) by (vm_compute; reflexivity).
  assert (B : cut 750 = Some Economy) by (vm_compute; reflexivity).
  assert (C : cut 1500 = Some MidRange) by (vm_compute; reflexivity).
  repeat split; try assumption.
  exact (cut_monotone 750 1500 Economy MidRange A B C).
Defined.

(** X2.  A rent gets no band exactly when it is missing, not above 0, or
    above 3000; every other rent gets exactly the band whose edges enclose
    it. *)
Theorem cut_out_of_range :
  forall x,
    (cut x = None <->
     is_nan x = true \/ (x <=? 0) = true \/ (3000 <? x) = true) /\
    (cut x <> None <-> (0 <? x) = true /\ (x <=? 3000) = true).
Proof.
  intros x. split; [apply cut_missing |].
  split.
  - intros H. destruct (cut x) as [c |] eqn:E; [| congruence].
    apply cut_in_bin in E. destruct E as [Lo Hi]. split.
    + assert (L : (0 <=? fst (edges c)) = true) by (destruct c; vm_compute; reflexivity).
      exact (leb_ltb_trans _ _ _ L Lo).
    + assert (U : (snd (edges c) <=? 3000) = true) by (destruct c; vm_compute; reflexivity).
      exact (leb_trans _ _ _ Hi U).
  - intros [Lo Hi] E. apply cut_missing in E.
    destruct (ltb_not_nan _ _ Lo) as [_ N].
    destruct E as [E | [E | E]].
    + congruence.
    + rewrite (leb_ltb_false _ _ E) in Lo. discriminate.
    + rewrite (ltb_leb_false _ _ E) in Hi. discriminate.
Qed.

Lemma filter_all {A : Type} (p : A -> bool) (l : list A) :
  Forall (fun x => p x = true) l -> filter p l = l.
Proof.
  induction 1 as [| x l Hx _ IH]; simpl; [reflexivity |].
  now rewrite Hx, IH.
Qed.



Lemma is_missing_iff {A : Type} (o : option A) : is_missing o = true <-> o = None.
Proof. destruct o; simpl; split; congruence. Qed.

Lemma option_Category_eqb_eq (a b : option Category) :
  option_eqb Category_eqb a b = true <-> a = b.
Proof.
  destruct a as [[] |], b as [[] |]; simpl; split; intros H; congruence.
Qed.

(** The distinct category cells of a frame, as the selector code lists them. *)
Lemma in_unique_categories (df : DataFrame) (o : option Category) :
  In o (unique (option_eqb Category_eqb) (map price_category (rows df))) <->
  exists r, In r (rows df) /\ price_category r = o.
Proof.
  rewrite (unique_In _ option_Category_eqb_eq), in_map_iff.
  split; intros [r [A B]]; exists r; tauto.
Qed.

Lemma sorted_py_None (l : list (option string)) :
  sorted_py l = None <-> In None l /\ (1 < List.length l)%nat.
Proof.
  unfold sorted_py.
  destruct (existsb is_missing l) eqn:E; simpl.
  - apply existsb_exists in E. destruct E as [o [Ho Hm]].
    apply is_missing_iff in Hm. subst o.
    destruct (Nat.ltb 1 (List.length l)) eqn:L.
    + apply Nat.ltb_lt in L. tauto.
    + apply Nat.ltb_ge in L. split; [discriminate | lia].
  - split; [discriminate |]. intros [H _].
    assert (X : existsb is_missing l = true).
    { apply existsb_exists. exists None. now split. }
    congruence.
Qed.

Lemma NoDup_two {A : Type} (l : list A) (a b : A) :
  In a l -> In b l -> a <> b -> (1 < List.length l)%nat.
Proof.
  intros Ha Hb N. destruct l as [| x [| y l]]; simpl in *; try lia; try tauto.
  destruct Ha as [<- | []], Hb as [<- | []]. congruence.
Qed.

Lemma NoDup_other {A : Type} (l : list A) (a : A) :
  NoDup l -> In a l -> (1 < List.length l)%nat -> exists b, In b l /\ b <> a.
Proof.
  intros N Ha L. destruct l as [| x [| y l]]; simpl in L; try lia.
  inversion N as [| ? ? Nx _]; subst.
  destruct Ha as [<- | Ha].
  - exists y. split; [right; now left |].
    intros ->. apply Nx. now left.
  - exists x. split; [now left |].
    intros ->. now apply Nx.
Qed.

(** X4.  When every rent of the file is above 0 and at most 3000, loading
    keeps every line, every loaded row has a price category, and the segment
    selector is built without an exception. *)
Theorem load_data_rents_in_range (csv : Csv) :
  rents_in_range csv ->
  rows (load_data csv) = map with_price_category (lines csv) /\
  Forall (fun r => price_category r <> None) (rows (load_data csv)) /\
  segments (load_data csv) <> None.
Proof.
  unfold rents_in_range. intros H.
  assert (R : rows (load_data csv) = map with_price_category (lines csv)).
  { rewrite rows_load_data. f_equal. apply filter_all.
    eapply Forall_impl; [| exact H]. intros c Hc. simpl in Hc. tauto. }
  assert (C : Forall (fun r => price_category r <> None) (rows (load_data csv))).
  { rewrite R. apply Forall_forall. intros r Hr.
    apply in_map_iff in Hr. destruct Hr as [c [<- Hc]].
    rewrite Forall_forall in H. destruct (H c Hc) as [Lo Hi].
    simpl. intros E. apply cut_missing in E.
    destruct (ltb_not_nan _ _ Lo) as [_ N].
    destruct E as [E | [E | E]].
    - congruence.
    - rewrite (leb_ltb_false _ _ E) in Lo. discriminate.
    - rewrite (ltb_leb_false _ _ E) in Hi. discriminate. }
  split; [exact R |]. split; [exact C |].
  unfold segments.
  destruct (sorted_py _) as [l |] eqn:E; [discriminate |].
  exfalso. apply sorted_py_None in E. destruct E as [E _].
  apply in_map_iff in E. destruct E as [o [Ho Hin]].
  destruct o as [c |]; [discriminate |].
  apply in_unique_categories in Hin. destruct Hin as [r [Hr Hn]].
  rewrite Forall_forall in C. now apply (C r Hr).
Qed.

Lemma load_data_rents_in_range_witness :
  rents_in_range berlin_csv /\
  rows (load_data berlin_csv) = map with_price_category (lines berlin_csv) /\
  Forall (fun r => price_category r <> None) (rows (load_data berlin_csv)) /\
  segments (load_data berlin_csv) <> None.
Proof.
  assert (H : rents_in_range berlin_csv).
  { unfold rents_in_range. simpl.
    repeat constructor; vm_compute; reflexivity. }
  split; [exact H |]. exact (load_data_rents_in_range berlin_csv H).
Defined.

(** X5.  Building the segment selector raises exactly when the table holds
    both a row without a price category and a row with one. *)
Theorem segments_raises_iff :
  forall df,
    segments df = None <->
    (exists r, In r (rows df) /\ price_category r = None) /\
    (exists r c, In r (rows df) /\ price_category r = Some c).
Proof.
  intros df. unfold segments.
  set (u := unique (option_eqb Category_eqb) (map price_category (rows df))).
  assert (N : NoDup u) by (apply unique_NoDup, option_Category_eqb_eq).
  assert (M : In None (map (option_map label) u) <-> In None u).
  { rewrite in_map_iff. split.
    - intros [[c |] [E H]]; [discriminate | exact H].
    - intros H. exists None. now split. }
  split.
  - intros H.
    destruct (sorted_py (map (option_map label) u)) eqn:E; [discriminate |].
    apply sorted_py_None in E. destruct E as [E L].
    rewrite length_map in L. apply M in E. split.
    + now apply in_unique_categories.
    + destruct (NoDup_other u None N E L) as [[c |] [Hb Nb]]; [| congruence].
      apply in_unique_categories in Hb. destruct Hb as [r [Hr Hc]].
      now exists r, c.
  - intros [[r [Hr Hn]] [r' [c [Hr' Hc]]]].
    assert (E : sorted_py (map (option_map label) u) = None).
    { apply sorted_py_None. split.
      - apply M. apply in_unique_categories. now exists r.
      - rewrite length_map. apply (NoDup_two u None (Some c)).
        + apply in_unique_categories. now exists r.
        + apply in_unique_categories. now exists r'.
        + discriminate. }
    now rewrite E.
Qed.
(** ** The order of strings and the sorted selectors *)

Lemma String_compare_refl (s : string) : String.compare s s = Eq.
Proof.
  induction s as [| a s IH]; simpl; [reflexivity |].
  unfold Ascii.compare. now rewrite N.compare_refl.
Qed.

Lemma String_compare_lt_trans (s1 s2 s3 : string) :
  String.compare s1 s2 = Lt -> String.compare s2 s3 = Lt ->
  String.compare s1 s3 = Lt.
Proof.
  revert s2 s3. induction s1 as [| a s1 IH]; intros [| b s2] [| c s3]; simpl;
    try discriminate; try reflexivity.
  unfold Ascii.compare.
  destruct (N.compare_spec (Ascii.N_of_ascii a) (Ascii.N_of_ascii b)) as [E1 | L1 | G1];
    try discriminate;
    destruct (N.compare_spec (Ascii.N_of_ascii b) (Ascii.N_of_ascii c)) as [E2 | L2 | G2];
    try discriminate; intros H1 H2.
  - rewrite E1, E2, N.compare_refl. now apply IH with s2.
  - rewrite E1. now apply N.compare_lt_iff in L2 as ->.
  - rewrite <- E2. now apply N.compare_lt_iff in L1 as ->.
  - assert (L : (Ascii.N_of_ascii a < Ascii.N_of_ascii c)%N) by lia.
    now apply N.compare_lt_iff in L as ->.
Qed.

Lemma String_ltb_irrefl (s : string) : String.ltb s s = false.
Proof. unfold String.ltb. now rewrite String_compare_refl. Qed.

Lemma String_ltb_trans (s1 s2 s3 : string) :
  String.ltb s1 s2 = true -> String.ltb s2 s3 = true -> String.ltb s1 s3 = true.
Proof.
  unfold String.ltb. intros H1 H2.
  destruct (String.compare s1 s2) eqn:E1; try discriminate.
  destruct (String.compare s2 s3) eqn:E2; try discriminate.
  now rewrite (String_compare_lt_trans _ _ _ E1 E2).
Qed.

Lemma String_ltb_asym (s1 s2 : string) :
  String.ltb s1 s2 = true -> String.ltb s2 s1 = false.
Proof.
  intros H. destruct (String.ltb s2 s1) eqn:E; [| reflexivity].
  pose proof (String_ltb_trans _ _ _ H E) as C.
  rewrite String_ltb_irrefl in C. discriminate.
Qed.

(** Two different strings are ordered one way or the other. *)
Lemma String_ltb_total (s1 s2 : string) :
  String.ltb s1 s2 = false -> s1 <> s2 -> String.ltb s2 s1 = true.
Proof.
  unfold String.ltb. rewrite (String.compare_antisym s2 s1). intros H N.
  destruct (String.compare s1 s2) eqn:E; simpl; try reflexivity; try discriminate.
  apply String.compare_eq_iff in E. contradiction.
Qed.

Section StrictSort.
Context {A : Type}.
Variable lt : A -> A -> bool.
Hypothesis lt_irrefl : forall a, lt a a = false.
Hypothesis lt_trans : forall a b c, lt a b = true -> lt b c = true -> lt a c = true.
Hypothesis lt_total : forall a b, lt a b = false -> a <> b -> lt b a = true.

Let below (a b : A) : Prop := lt a b = true.

Lemma insert_strict (x : A) (l : list A) :
  ~ In x l -> StronglySorted below l -> StronglySorted below (insert lt x l).
Proof.
  intros N S. induction S as [| y l S IH F]; simpl.
  - repeat constructor.
  - destruct (lt x y) eqn:E.
    + constructor; [now constructor |].
      constructor; [exact E |].
      rewrite Forall_forall in *. intros z Hz.
      apply lt_trans with y; [exact E | now apply F].
    + constructor.
      * apply IH. intros H. apply N. now right.
      * rewrite Forall_forall in *. intros z Hz.
        apply (Permutation_in _ (insert_perm lt x l)) in Hz.
        destruct Hz as [<- | Hz]; [| now apply F].
        apply lt_total; [exact E |]. intros ->. apply N. now left.
Qed.

Lemma insertion_sort_acc_strict (l acc : list A) :
  NoDup (acc ++ l) -> StronglySorted below acc ->
  StronglySorted below (fold_left (fun acc x => insert lt x acc) l acc).
Proof.
  revert acc. induction l as [| x l IH]; intros acc N S; simpl; [exact S |].
  apply IH.
  - eapply Permutation_NoDup; [| exact N].
    rewrite (insert_perm lt x acc). symmetry. apply Permutation_middle.
  - apply insert_strict; [| exact S].
    apply NoDup_remove_2 in N. intros H. apply N. apply in_or_app. now left.
Qed.

(** Sorting a list without duplicates gives a strictly ascending list. *)
Lemma insertion_sort_strict (l : list A) :
  NoDup l -> StronglySorted below (insertion_sort lt l).
Proof.
  intros N. apply insertion_sort_acc_strict; [exact N | constructor].
Qed.

(** A strictly ascending list is determined by its members. *)
Lemma strictly_sorted_eq (l1 l2 : list A) :
  StronglySorted below l1 -> StronglySorted below l2 ->
  (forall x, In x l1 <-> In x l2) -> l1 = l2.
Proof.
  intros S1. revert l2. induction S1 as [| a l1 S1 IH F1]; intros l2 S2 H.
  - destruct l2 as [| b l2]; [reflexivity |].
    exfalso. apply (H b). now left.
  - destruct S2 as [| b l2 S2 F2].
    + exfalso. apply (H a). now left.
    + rewrite Forall_forall in F1, F2.
      assert (E : a = b).
      { destruct (proj1 (H a) (or_introl eq_refl)) as [E | Ha]; [now symmetry |].
        destruct (proj2 (H b) (or_introl eq_refl)) as [E | Hb]; [exact E |].
        pose proof (lt_trans _ _ _ (F1 b Hb) (F2 a Ha)) as C.
        rewrite lt_irrefl in C. discriminate. }
      subst b. f_equal. apply IH; [exact S2 |].
      intros x. split; intros Hx.
      * destruct (proj1 (H x) (or_intror Hx)) as [<- | Hx']; [| exact Hx'].
        pose proof (F1 _ Hx) as C. unfold below in C.
        rewrite lt_irrefl in C. discriminate.
      * destruct (proj2 (H x) (or_intror Hx)) as [<- | Hx']; [| exact Hx'].
        pose proof (F2 _ Hx) as C. unfold below in C.
        rewrite lt_irrefl in C. discriminate.
Qed.

End StrictSort.



Lemma label_inj (c d : Category) : label c = label d -> c = d.
Proof. destruct c, d; simpl; intros H; congruence. Qed.

Lemma all_some {A : Type} (l : list (option A)) :
  ~ In None l -> exists xs, l = map Some xs.
Proof.
  induction l as [| [x |] l IH]; intros H.
  - now exists [].
  - destruct IH as [xs ->]; [intros C; apply H; now right |].
    now exists (x :: xs).
  - exfalso. apply H. now left.
Qed.

Lemma insert_py_lt (x : string) (l : list string) :
  insert py_lt (Some x) (map Some l) = map Some (insert String.ltb x l).
Proof.
  induction l as [| y l IH]; simpl; [reflexivity |].
  destruct (String.ltb x y); simpl; [reflexivity | now rewrite IH].
Qed.

Lemma insertion_sort_py_lt (l : list string) :
  insertion_sort py_lt (map Some l) = map Some (insertion_sort String.ltb l).
Proof.
  unfold insertion_sort. change (@nil (option string)) with (map (@Some string) []).
  generalize (@nil string) as acc.
  induction l as [| x l IH]; intros acc; simpl; [reflexivity |].
  now rewrite insert_py_lt, IH.
Qed.

Lemma StronglySorted_filter {A : Type} (R : A -> A -> Prop) (p : A -> bool) (l : list A) :
  StronglySorted R l -> StronglySorted R (filter p l).
Proof.
  induction 1 as [| x l S IH F]; simpl; [constructor |].
  destruct (p x); [| exact IH].
  constructor; [exact IH |].
  rewrite Forall_forall in *. intros y Hy. apply filter_In in Hy. now apply F.
Qed.

Lemma StronglySorted_map {A B : Type} (R : B -> B -> Prop) (f : A -> B) (l : list A) :
  StronglySorted (fun a b => R (f a) (f b)) l -> StronglySorted R (map f l).
Proof.
  induction 1 as [| x l S IH F]; simpl; constructor; [exact IH |].
  rewrite Forall_forall in *. intros y Hy.
  apply in_map_iff in Hy. destruct Hy as [a [<- Ha]]. now apply F.
Qed.

Lemma labels_ascending :
  StronglySorted (fun c d => String.ltb (label c) (label d) = true) labels.
Proof.
  unfold labels. repeat constructor.
Qed.

(** X7.  On a table where every row has a price category, the segment
    selector offers the sentinel and then the labels of the bands that occur
    in the table, each once, in band order (which is also their alphabetical
    order). *)
Theorem segments_selector (df : DataFrame) :
  Forall (fun r => price_category r <> None) (rows df) ->
  segments df
  = Some (Some "All Segments"
          :: map (fun c => Some (label c))
                 (filter (fun c => existsb (in_category c) (rows df)) labels)).
Proof.
  intros C. unfold segments.
  set (u := unique (option_eqb Category_eqb) (map price_category (rows df))).
  assert (Nu : ~ In None u).
  { intros H. apply in_unique_categories in H. destruct H as [r [Hr Hn]].
    rewrite Forall_forall in C. now apply (C r Hr). }
  destruct (all_some u Nu) as [cs Ecs].
  assert (Dcs : NoDup cs).
  { apply (NoDup_map_inv (@Some Category)). rewrite <- Ecs.
    apply unique_NoDup, option_Category_eqb_eq. }
  assert (Mcs : forall c, In c cs <-> exists r, In r (rows df) /\ price_category r = Some c).
  { intros c. rewrite <- in_unique_categories. fold u. rewrite Ecs, in_map_iff.
    split.
    - intros H. exists c. now split.
    - intros [c' [[= ->] H]]. exact H. }
  replace (map (option_map label) u) with (map Some (map label cs))
    by (rewrite Ecs, !map_map; reflexivity).
  assert (E : sorted_py (map Some (map label cs))
              = Some (map Some (insertion_sort String.ltb (map label cs)))).
  { unfold sorted_py.
    assert (X : existsb is_missing (map Some (map label cs)) = false).
    { destruct (existsb is_missing (map Some (map label cs))) eqn:X; [| reflexivity].
      apply existsb_exists in X. destruct X as [o [Ho Hm]].
      apply in_map_iff in Ho. destruct Ho as [s [<- _]]. discriminate. }
    rewrite X. simpl. now rewrite insertion_sort_py_lt. }
  rewrite E. do 2 f_equal.
  rewrite <- (map_map label (@Some string)). f_equal.
  apply (strictly_sorted_eq String.ltb String_ltb_irrefl String_ltb_trans).
  - apply (insertion_sort_strict String.ltb String_ltb_trans String_ltb_total).
    clear - Dcs. induction Dcs as [| c cs N D IH]; simpl; constructor; [| exact IH].
    intros H. apply in_map_iff in H. destruct H as [d [Hd Hin]].
    apply label_inj in Hd. now subst d.
  - apply StronglySorted_map, StronglySorted_filter, labels_ascending.
  - intros s. split; intros H.
    + apply (Permutation_in _ (insertion_sort_perm String.ltb (map label cs))) in H.
      apply in_map_iff in H. destruct H as [c [<- Hc]].
      apply in_map. apply filter_In. split; [destruct c; simpl; tauto |].
      apply Mcs in Hc. destruct Hc as [r [Hr Hc]].
      apply existsb_exists. exists r. split; [exact Hr |]. now apply in_category_iff.
    + apply in_map_iff in H. destruct H as [c [<- Hc]].
      apply filter_In in Hc. destruct Hc as [_ Hc].
      apply existsb_exists in Hc. destruct Hc as [r [Hr Hc]].
      apply in_category_iff in Hc.
      apply (Permutation_in _ (Permutation_sym (insertion_sort_perm String.ltb (map label cs)))).
      apply in_map. apply Mcs. now exists r.
Qed.

Lemma segments_selector_witness :
  Forall (fun r => price_category r <> None) (rows (load_data berlin_csv)) /\
  segments (load_data berlin_csv)
  = Some [Some "All Segments"; Some "Budget"; Some "Mid-Range"].
Proof.
  assert (H : Forall (fun r => price_category r <> None) (rows (load_data berlin_csv))).
  { vm_compute. repeat constructor; discriminate. }
  split; [exact H |].
  exact (segments_selector (load_data berlin_csv) H).
Defined.

(** ** More on the filter layer *)

Lemma rows_filtered_df (df : DataFrame) (state segment : string) :
  rows (filtered_df df state segment) = filter (selection state segment) (rows df).
Proof. now rewrite filtered_df_select. Qed.



Lemma filtered_df_choice_label (df : DataFrame) (state segment : string) :
  filtered_df_choice df state (Some segment) = filtered_df df state segment.
Proof. reflexivity. Qed.

(** X9.  Choosing an entry the segment selector offers (other than the
    sentinel), with no region chosen: a label never gives an empty table;
    the entry nan, which the selector offers when no row has a category,
    always does. *)
Theorem offered_segment_has_rows (df : DataFrame) (l : list (option string))
        (v : option string) :
  segments df = Some l -> In v l -> v <> Some "All Segments" ->
  (rows (filtered_df_choice df "All States" v) = [] <-> v = None) /\
  (forall segment, v = Some segment ->
                   filtered_df_choice df "All States" v
                   = filtered_df df "All States" segment).
Proof.
  unfold segments. intros S H N.
  split; [| intros segment ->; apply filtered_df_choice_label].
  destruct v as [segment |].
  - split; [| discriminate]. intros Z. exfalso.
    rewrite filtered_df_choice_label in Z.
    destruct (sorted_py _) as [l' |] eqn:E; [| discriminate].
    injection S as <-. destruct H as [H | H]; [congruence |].
    unfold sorted_py in E.
    destruct (existsb is_missing _ && _); [discriminate |].
    injection E as <-.
    apply (Permutation_in _ (insertion_sort_perm py_lt _)) in H.
    apply in_map_iff in H. destruct H as [[c |] [Ec Hc]]; [| discriminate].
    injection Ec as Ec.
    apply in_unique_categories in Hc. destruct Hc as [r [Hr Hc]].
    assert (I : In r (rows (filtered_df df "All States" segment))).
    { rewrite rows_filtered_df. apply filter_In. split; [exact Hr |].
      unfold selection. rewrite Hc, Ec, !String.eqb_refl.
      now rewrite orb_true_r. }
    rewrite Z in I. exact I.
  - split; [reflexivity |]. intros _.
    unfold filtered_df_choice, select. simpl.
    clear S H N. generalize (rows df) as rs.
    induction rs as [| r rs IH]; [reflexivity | exact IH].
Qed.

Lemma offered_segment_has_rows_witness :
  (segments (load_data berlin_csv)
   = Some [Some "All Segments"; Some "Budget"; Some "Mid-Range"] /\
   rows (filtered_df (load_data berlin_csv) "All States" "Budget") <> []) /\
  (segments (load_data two_zero_rent_csv) = Some [Some "All Segments"; None] /\
   rows (filtered_df_choice (load_data two_zero_rent_csv) "All States" None) = []).
Proof.
  assert (A : segments (load_data berlin_csv)
              = Some [Some "All Segments"; Some "Budget"; Some "Mid-Range"])
    by (vm_compute; reflexivity).
  assert (B : segments (load_data two_zero_rent_csv)
              = Some [Some "All Segments"; None])
    by (vm_compute; reflexivity).
  split; (split; [assumption |]).
  - assert (I : In (Some "Budget")
                   [Some "All Segments"; Some "Budget"; Some "Mid-Range"])
      by (simpl; tauto).
    assert (D : Some "Budget" <> Some "All Segments") by discriminate.
    destruct (offered_segment_has_rows (load_data berlin_csv) _ (Some "Budget") A I D)
      as [E _].
    intros Z. apply E in Z. discriminate.
  - assert (I : In None [Some "All Segments"; @None string]) by (simpl; tauto).
    assert (D : @None string <> Some "All Segments") by discriminate.
    destruct (offered_segment_has_rows (load_data two_zero_rent_csv) _ None B I D)
      as [E _].
    apply E. reflexivity.
Defined.

(** X10.  The two filters can be applied one after the other, in either order,
    with the same result as applying both at once; and filtering by a second
    pair of selections commutes with filtering by the first. *)
Theorem filtered_df_compose :
  forall df state segment,
    filtered_df (filtered_df df state "All Segments") "All States" segment
    = filtered_df df state segment /\
    filtered_df (filtered_df df "All States" segment) state "All Segments"
    = filtered_df df state segment /\
    forall state' segment',
      filtered_df (filtered_df df state segment) state' segment'
      = filtered_df (filtered_df df state' segment') state segment.
Proof.
  intros df state segment. rewrite !filtered_df_select. unfold select; simpl.
  split; [| split].
  - f_equal. rewrite filter_filter. apply filter_ext. intros r.
    unfold selection. simpl. now rewrite andb_true_r.
  - f_equal. rewrite filter_filter. apply filter_ext. intros r.
    unfold selection. simpl. rewrite andb_true_r. apply andb_comm.
  - intros state' segment'. rewrite !filtered_df_select. unfold select; simpl.
    f_equal. rewrite !filter_filter. apply filter_ext. intros r. apply andb_comm.
Qed.

(** X11.  On the loaded table, every row shown after choosing a band has that
    band and a rent strictly above the band's lower edge and at most its
    upper edge, and, when a region is chosen too, that region. *)
Theorem filtered_rows_in_band :
  forall csv state c,
    Forall (fun r => price_category r = Some c /\
                     in_bin c (totalRent r) /\
                     (state = "All States" \/ regio1 r = state))
           (rows (filtered_df (load_data csv) state (label c))).
Proof.
  intros csv state c. apply Forall_forall. intros r Hr.
  rewrite rows_filtered_df in Hr. apply filter_In in Hr. destruct Hr as [Hr S].
  pose proof (loaded_price_category csv) as P. rewrite Forall_forall in P.
  specialize (P r Hr). simpl in P.
  unfold selection in S. apply andb_true_iff in S. destruct S as [S1 S2].
  assert (L : String.eqb (label c) "All Segments" = false) by (destruct c; reflexivity).
  rewrite L in S2. simpl in S2. unfold category_is in S2.
  destruct (price_category r) as [c' |] eqn:E; [| discriminate].
  apply String.eqb_eq, label_inj in S2. subst c'.
  split; [reflexivity |]. split.
  - apply cut_in_bin. now rewrite <- P.
  - apply orb_true_iff in S1. destruct S1 as [S1 | S1].
    + left. now apply String.eqb_eq.
    + right. now apply String.eqb_eq.
Qed.

(** ** Empty selections *)

Lemma mean_nil : mean [] = nan.
Proof. vm_compute. reflexivity. Qed.

(** X12.  On a table without rows the listing count is 0 and the three
    averages of the metrics panel are NaN; nothing is raised. *)
Theorem empty_table_metrics (df : DataFrame) :
  rows df = [] ->
  Metrics.total_listings df = 0%nat /\
  Metrics.avg_rent df = nan /\
  Metrics.avg_space df = nan /\
  Metrics.price_per_sqm df = nan.
Proof.
  intros H.
  unfold Metrics.total_listings, Metrics.avg_rent, Metrics.avg_space,
    Metrics.price_per_sqm.
  rewrite H. simpl. repeat split; apply mean_nil.
Qed.

Lemma empty_table_metrics_witness :
  rows (filtered_df (load_data berlin_csv) "Bayern" "All Segments") = [] /\
  Metrics.total_listings (filtered_df (load_data berlin_csv) "Bayern" "All Segments") = 0%nat /\
  Metrics.avg_rent (filtered_df (load_data berlin_csv) "Bayern" "All Segments") = nan /\
  Metrics.avg_space (filtered_df (load_data berlin_csv) "Bayern" "All Segments") = nan /\
  Metrics.price_per_sqm (filtered_df (load_data berlin_csv) "Bayern" "All Segments") = nan.
Proof.
  assert (H : rows (filtered_df (load_data berlin_csv) "Bayern" "All Segments") = [])
    by (vm_compute; reflexivity).
  split; [exact H |].
  exact (empty_table_metrics _ H).
Defined.

(** ** More on the amenities analysis *)

Lemma filter_none {A : Type} (p : A -> bool) (l : list A) :
  Forall (fun x => p x = false) l -> filter p l = [].
Proof.
  induction 1 as [| x l Hx _ IH]; simpl; [reflexivity |]. now rewrite Hx.
Qed.

Lemma without_amenity_everywhere (df : DataFrame) (a : Amenity) :
  Forall (fun r => flag a r = true) (rows df) ->
  without_amenity df a = nan /\ amenity_entry df a = None.
Proof.
  intros H.
  assert (W : without_amenity df a = nan).
  { unfold without_amenity. rewrite filter_none; [apply mean_nil |].
    eapply Forall_impl; [| exact H]. intros r Hr. simpl in Hr. now rewrite Hr. }
  split; [exact W |].
  unfold amenity_entry. rewrite W.
  destruct (has_column df (name a)); reflexivity.
Qed.

(** X13.  An amenity that every listing of the table has (in particular, any
    amenity on a table without rows) is left out of the result: the mean rent
    without it is NaN, and the guard is false for NaN. *)
Theorem amenity_everywhere_omitted (df : DataFrame) (a : Amenity) :
  Forall (fun r => flag a r = true) (rows df) ->
  without_amenity df a = nan /\
  amenity_entry df a = None /\
  ~ In (name a) (map amenity (amenity_results df)).
Proof.
  intros H. destruct (without_amenity_everywhere df a H) as [W E].
  split; [exact W |]. split; [exact E |].
  intros I. apply in_map_iff in I. destruct I as [e [He Hin]].
  apply in_amenity_results in Hin. destruct Hin as [b [_ Hb]].
  destruct (amenity_entry_inv _ _ _ Hb) as [_ [_ [Hn _]]].
  rewrite Hn in He. apply name_inj in He. subst b. congruence.
Qed.

Lemma amenity_everywhere_omitted_witness :
  Forall (fun r => flag Lift r = true)
         (rows (filtered_df (load_data two_amenities_csv) "Berlin" "All Segments")) /\
  amenity_entry (filtered_df (load_data two_amenities_csv) "Berlin" "All Segments") Lift
  = None.
Proof.
  assert (H : Forall (fun r => flag Lift r = true)
                (rows (filtered_df (load_data two_amenities_csv) "Berlin" "All Segments"))).
  { vm_compute. repeat constructor. }
  split; [exact H |].
  exact (proj1 (proj2 (amenity_everywhere_omitted _ Lift H))).
Defined.

Lemma Prim2SF_nan : Prim2SF nan = S754_nan.
Proof. vm_compute. reflexivity. Qed.

Lemma sub_nan_l (x y : float) : is_nan x = true -> is_nan (x - y) = true.
Proof.
  intros N. apply is_nan_Prim2SF in N. apply is_nan_of_Prim2SF.
  rewrite sub_spec, N. reflexivity.
Qed.

Lemma mul_nan_l (x y : float) : is_nan x = true -> is_nan (x * y) = true.
Proof.
  intros N. apply is_nan_Prim2SF in N. apply is_nan_of_Prim2SF.
  rewrite mul_spec, N. reflexivity.
Qed.

Lemma StronglySorted_after {A : Type} (R : A -> A -> Prop) (l1 l2 : list A) (x : A) :
  StronglySorted R (l1 ++ x :: l2) -> Forall (R x) l2.
Proof.
  induction l1 as [| y l1 IH]; simpl; intros S; inversion S; subst; auto.
Qed.

(** X14.  An amenity that no listing of the table has, while the mean rent is
    positive, is reported with an undefined (NaN) premium; in the sorted
    frame only rows with an undefined premium come after it. *)
Theorem amenity_nowhere_undefined (df : DataFrame) (a : Amenity) (e : AmenityResult) :
  Forall (fun r => flag a r = false) (rows df) ->
  amenity_entry df a = Some e ->
  is_nan (premium_pct e) = true /\
  In e (amenity_results df) /\
  forall l1 l2, amenity_df df = Some (l1 ++ e :: l2) ->
                Forall (fun e' => is_nan (premium_pct e') = true) l2.
Proof.
  intros H E.
  destruct (amenity_entry_inv _ _ _ E) as [_ [_ [_ [P _]]]].
  assert (W : with_amenity df a = nan).
  { unfold with_amenity. rewrite filter_none; [apply mean_nil |].
    eapply Forall_impl; [| exact H]. intros r Hr. simpl in Hr. now rewrite Hr. }
  assert (N : is_nan (premium_pct e) = true).
  { rewrite P, W. apply mul_nan_l, div_nan_l, sub_nan_l. reflexivity. }
  split; [exact N |]. split.
  - apply in_amenity_results. exists a. split; [destruct a; simpl; tauto | exact E].
  - intros l1 l2 D. unfold amenity_df in D.
    destruct (amenity_results df) as [| e0 rs]; [discriminate |].
    injection D as D.
    pose proof (sort_values_desc_sorted premium_pct (e0 :: rs)) as S.
    rewrite D in S. apply StronglySorted_after in S.
    eapply Forall_impl; [| exact S]. intros e' Pe. simpl in Pe.
    unfold precedes in Pe. apply orb_true_iff in Pe.
    destruct Pe as [Pe | Pe]; [exact Pe |].
    apply leb_not_nan in Pe. destruct Pe as [_ Pe]. congruence.
Qed.

Lemma amenity_nowhere_undefined_witness :
  Forall (fun r => flag Garden r = false) (rows (load_data berlin_csv)) /\
  amenity_entry (load_data berlin_csv) Garden
  = Some (mkAmenityResult "garden" nan 0) /\
  is_nan (premium_pct (mkAmenityResult "garden" nan 0)) = true.
Proof.
  assert (H : Forall (fun r => flag Garden r = false) (rows (load_data berlin_csv))).
  { vm_compute. repeat constructor. }
  assert (E : amenity_entry (load_data berlin_csv) Garden
              = Some (mkAmenityResult "garden" nan 0)).
  { vm_compute. reflexivity. }
  split; [exact H |]. split; [exact E |].
  exact (proj1 (amenity_nowhere_undefined _ Garden _ H E)).
Defined.

Lemma NoDup_map_name (l : list Amenity) : NoDup l -> NoDup (map name l).
Proof.
  induction 1 as [| a l N D IH]; simpl; constructor; [| exact IH].
  intros H. apply in_map_iff in H. destruct H as [b [Hb Hin]].
  apply name_inj in Hb. now subst b.
Qed.

(** X15.  The result names exactly the amenities whose column the table has
    and whose baseline (the mean rent without the amenity) is positive, once
    each and in the order of the amenity list; so it has at most five rows. *)
Theorem amenity_results_names :
  forall df,
    map amenity (amenity_results df)
    = map name (filter (fun a => has_column df (name a)
                                 && (0 <? without_amenity df a)) amenities) /\
    NoDup (map amenity (amenity_results df)) /\
    (List.length (amenity_results df) <= 5)%nat.
Proof.
  intros df.
  assert (E : forall l,
             map amenity (flat_map (appended df) l)
             = map name (filter (fun a => has_column df (name a)
                                          && (0 <? without_amenity df a)) l)).
  { induction l as [| a l IH]; simpl; [reflexivity |].
    rewrite map_app, IH. unfold appended, amenity_entry.
    destruct (has_column df (name a)); simpl; [| reflexivity].
    destruct (0 <? without_amenity df a); reflexivity. }
  assert (M : map amenity (amenity_results df)
              = map name (filter (fun a => has_column df (name a)
                                           && (0 <? without_amenity df a)) amenities)).
  { rewrite amenity_results_flat_map. apply E. }
  split; [exact M |]. split.
  - rewrite M.
    assert (D : NoDup amenities).
    { unfold amenities. repeat constructor; simpl; intuition discriminate. }
    apply NoDup_map_name, NoDup_filter, D.
  - rewrite <- (length_map amenity), M, length_map.
    etransitivity; [apply filter_length_le | simpl; lia].
Qed.

(** ** More on the group-by views *)

Lemma count_agg {K : Type} (k : K) (g : list Listing) :
  count (agg k g) = List.length (filter rent_defined g).
Proof.
  unfold agg; simpl. unfold dropna, rent_defined.
  induction g as [| r g IH]; simpl; [reflexivity |].
  destruct (is_nan (totalRent r)); simpl; now rewrite IH.
Qed.




Lemma list_sum_map_filter {A : Type} (f : A -> nat) (p : A -> bool) (l : list A) :
  (forall x, p x = false -> f x = 0%nat) ->
  list_sum (map f (filter p l)) = list_sum (map f l).
Proof.
  intros H. induction l as [| x l IH]; simpl; [reflexivity |].
  destruct (p x) eqn:E; simpl; rewrite IH; [reflexivity |].
  now rewrite (H x E).
Qed.



Lemma length_filter_filter_cons {A : Type} (p q : A -> bool) (x : A) (l : list A) :
  List.length (filter p (filter q (x :: l)))
  = ((if q x && p x then 1 else 0) + List.length (filter p (filter q l)))%nat.
Proof.
  simpl. destruct (q x); simpl; [| reflexivity]. destruct (p x); reflexivity.
Qed.

Lemma category_partition (l : list Listing) :
  list_sum (map (fun c => List.length (filter rent_defined (filter (in_category c) l)))
                labels)
  = List.length (filter (fun r => categorised r && rent_defined r) l).
Proof.
  unfold labels. cbn [map list_sum].
  induction l as [| r l IH]; [reflexivity |].
  rewrite !length_filter_filter_cons. cbn [filter].
  assert (E : ((if in_category Budget r && rent_defined r then 1 else 0)
               + (if in_category Economy r && rent_defined r then 1 else 0)
               + (if in_category MidRange r && rent_defined r then 1 else 0)
               + (if in_category Premium r && rent_defined r then 1 else 0))%nat
              = (if categorised r && rent_defined r then 1 else 0)%nat).
  { unfold in_category, categorised.
    destruct (price_category r) as [[] |]; simpl; destruct (rent_defined r); reflexivity. }
  unfold list_sum in *. cbn [fold_right] in *.
  destruct (categorised r && rent_defined r); cbn [List.length]; lia.
Qed.

(** X16.  The counts of the segment table add up to the number of rows that
    have a price category and a rent: each such row is counted in exactly one
    segment, whichever default [groupby] has.  On the loaded table, where no
    rent is missing, they add up to the number of categorised rows. *)
Theorem segment_counts_total :
  (forall observed df,
      list_sum (map count (segment_data observed df))
      = List.length (filter (fun r => categorised r && rent_defined r) (rows df))) /\
  (forall observed csv state segment,
      list_sum (map count (segment_data observed
                             (filtered_df (load_data csv) state segment)))
      = List.length (filter categorised
                            (rows (filtered_df (load_data csv) state segment)))).
Proof.
  assert (G : forall observed df,
      list_sum (map count (segment_data observed df))
      = List.length (filter (fun r => categorised r && rent_defined r) (rows df))).
  { intros observed df. unfold segment_data. rewrite map_map.
    rewrite (map_ext _ (fun c => List.length
                                   (filter rent_defined (filter (in_category c) (rows df)))))
      by (intros c; apply count_agg).
    destruct observed; [| apply category_partition].
    rewrite list_sum_map_filter; [apply category_partition |].
    intros c E. rewrite (filter_none (in_category c)); [reflexivity |].
    apply Forall_forall. intros r Hr.
    destruct (in_category c r) eqn:I; [| reflexivity].
    assert (X : existsb (in_category c) (rows df) = true)
      by (apply existsb_exists; now exists r).
    congruence. }
  split; [exact G |].
  intros observed csv state segment. rewrite G. f_equal.
  apply filter_ext_in. intros r Hr.
  assert (D : Forall (fun r => is_nan (totalRent r) = false)
                     (rows (filtered_df (load_data csv) state segment))).
  { apply Forall_filtered_df.
    eapply Forall_impl; [| apply loaded_under_ceiling].
    intros r' H. simpl in H. now apply leb_not_nan in H. }
  rewrite Forall_forall in D. unfold rent_defined. rewrite (D r Hr).
  apply andb_true_r.
Qed.

Lemma state_data_perm (df : DataFrame) :
  Permutation
    (state_data df)
    (map (fun k => agg k (filter (region_is k) (rows df)))
         (unique String.eqb (map regio1 (rows df)))).
Proof.
  unfold state_data. rewrite sort_values_desc_perm.
  apply Permutation_map, insertion_sort_perm.
Qed.

(** X17.  The geography table is ordered by average rent, largest first, with
    undefined averages last.  It has one row for each region of the table
    and no other: each row is the aggregate of the listings of its region,
    of which there is at least one. *)
Theorem state_data_sorted_groups :
  forall df,
    sorted_desc avg_rent (state_data df) /\
    NoDup (map group (state_data df)) /\
    (forall s, In s (map group (state_data df)) <->
               exists r, In r (rows df) /\ regio1 r = s) /\
    (forall e, In e (state_data df) ->
               e = agg (group e) (filter (region_is (group e)) (rows df)) /\
               filter (region_is (group e)) (rows df) <> []).
Proof.
  intros df.
  pose proof (state_data_perm df) as P.
  assert (K : Permutation (map group (state_data df))
                          (unique String.eqb (map regio1 (rows df)))).
  { rewrite (Permutation_map group P). now rewrite group_agg. }
  split; [apply sort_values_desc_sorted |]. split; [| split].
  - eapply Permutation_NoDup; [symmetry; exact K |].
    apply unique_NoDup, String.eqb_eq.
  - intros s. split.
    + intros H. apply (Permutation_in _ K) in H.
      apply (proj1 (unique_In String.eqb String.eqb_eq s _)) in H.
      apply in_map_iff in H. destruct H as [r [E Hr]]. now exists r.
    + intros [r [Hr E]]. apply (Permutation_in _ (Permutation_sym K)).
      apply (proj2 (unique_In String.eqb String.eqb_eq s _)).
      apply in_map_iff. now exists r.
  - intros e He. apply (Permutation_in _ P) in He.
    apply in_map_iff in He. destruct He as [k [<- Hk]]. simpl.
    split; [reflexivity |].
    apply (proj1 (unique_In String.eqb String.eqb_eq k _)) in Hk.
    apply in_map_iff in Hk. destruct Hk as [r [E Hr]].
    intros Z.
    assert (I : In r (filter (region_is k) (rows df))).
    { apply filter_In. split; [exact Hr |]. unfold region_is. rewrite E.
      apply String.eqb_refl. }
    rewrite Z in I. exact I.
Qed.


(** X19.  On a table without rows the views stay defined: no region group,
    no observed segment (four segments with count 0 and undefined averages
    under the older [groupby] default), no amenity row and so no amenity
    frame. *)
Theorem empty_table_views (df : DataFrame) :
  rows df = [] ->
  state_data df = [] /\
  segment_data true df = [] /\
  segment_data false df = map (fun c => mkGroupRow c nan 0 nan) labels /\
  amenity_results df = [] /\
  amenity_df df = None.
Proof.
  intros H.
  assert (A : amenity_results df = []).
  { rewrite amenity_results_flat_map.
    assert (E : forall a, appended df a = []).
    { intros a. unfold appended.
      destruct (without_amenity_everywhere df a) as [_ E].
      - rewrite H. constructor.
      - now rewrite E. }
    unfold amenities. simpl. now rewrite !E. }
  split; [| split; [| split; [| split]]].
  - unfold state_data. rewrite H. reflexivity.
  - unfold segment_data. rewrite H. reflexivity.
  - unfold segment_data. rewrite H. vm_compute. reflexivity.
  - exact A.
  - unfold amenity_df. now rewrite A.
Qed.

Lemma empty_table_views_witness :
  rows (filtered_df (load_data berlin_csv) "Bayern" "All Segments") = [] /\
  amenity_df (filtered_df (load_data berlin_csv) "Bayern" "All Segments") = None.
Proof.
  assert (H : rows (filtered_df (load_data berlin_csv) "Bayern" "All Segments") = [])
    by (vm_compute; reflexivity).
  split; [exact H |].
  exact (proj2 (proj2 (proj2 (proj2 (empty_table_views _ H))))).
Defined.
